(** * curated_collection: the static file server of [server.py]

    [server.py] maps an HTTP GET either to a file of the project directory
    ([serve_root_files]) or to a file of its [images_scraped] subdirectory
    ([serve_scraped_images]), and answers 404 in every other case.

    The two handlers are embedded below twice.  First as functions of the
    request path and of a read-only view of the file system, which return
    a response or raise an exception: the handlers on a standard output
    that takes every line.  Then with their [print] calls, in a monad that
    carries the lines printed, over a standard output that may raise
    ([Logged]).  The library functions they call ([posixpath],
    [werkzeug.utils.safe_join], [werkzeug.utils.send_from_directory],
    [urllib.parse.unquote]) are embedded after their POSIX
    implementations; [str.lower], which reads the case tables of Unicode,
    is a parameter of the image handler.

    Python strings are represented by their UTF-8 encoding: a [string] is a
    sequence of bytes, and an ASCII character is one byte. *)

From Stdlib Require Import Bool List Permutation Arith Lia Ascii String.
Import ListNotations.

Local Open Scope string_scope.
Local Open Scope bool_scope.

(** ** Python strings *)

Module Str.

Definition sep : ascii := "/"%char.

(** [sub in s] for a one-character [sub]. *)
Fixpoint contains (c : ascii) (s : string) : bool :=
  match s with
  | EmptyString => false
  | String d r => Ascii.eqb d c || contains c r
  end.

(** [s.startswith(p)]. *)
Fixpoint startswith (p s : string) : bool :=
  match p, s with
  | EmptyString, _ => true
  | String _ _, EmptyString => false
  | String a p', String b s' => Ascii.eqb a b && startswith p' s'
  end.

(** [s.endswith("/")]. *)
Fixpoint endswith_sep (s : string) : bool :=
  match s with
  | EmptyString => false
  | String c EmptyString => Ascii.eqb c sep
  | String _ r => endswith_sep r
  end.

(** [s.split("/")]: never empty, and no piece holds a separator. *)
Fixpoint split (s : string) : list string :=
  match s with
  | EmptyString => [EmptyString]
  | String c r =>
      if Ascii.eqb c sep then EmptyString :: split r
      else match split r with
           | h :: t => String c h :: t
           | [] => [String c EmptyString]
           end
  end.

(** ["/".join(l)]. *)
Definition join (l : list string) : string := String.concat "/" l.

(** The lower case of an ASCII character: the letters A-Z. *)
Definition ascii_lower_char (c : ascii) : ascii :=
  let n := nat_of_ascii c in
  if ((65 <=? n) && (n <=? 90))%nat then ascii_of_nat (n + 32) else c.

(** [s.lower()] for a string [s] of ASCII characters.  On a string with a
    character beyond ASCII this is not [str.lower], which follows the case
    tables of Unicode; the handlers below take [str.lower] as a parameter,
    and this function stands for it in the examples: their names are
    ASCII, but for one in lower case that [str.lower] leaves as it is as
    well. *)
Fixpoint ascii_lower (s : string) : string :=
  match s with
  | EmptyString => EmptyString
  | String c r => String (ascii_lower_char c) (ascii_lower r)
  end.

End Str.

(** ** posixpath *)

Module PosixPath.

(** [posixpath.isabs]. *)
Definition isabs (s : string) : bool := Str.startswith "/" s.

(** [posixpath.join(a, b)]. *)
Definition join (a b : string) : string :=
  if Str.startswith "/" b then b
  else if (a =? "") || Str.endswith_sep a then a ++ b
  else a ++ "/" ++ b.

(** [posixpath.basename]: what follows the last separator. *)
Definition basename (p : string) : string := last (Str.split p) "".

(** The number of leading slashes [normpath] keeps: 0, 1, or 2 when the
    path starts with exactly two. *)
Definition initial_slashes (path : string) : nat :=
  if Str.startswith "/" path then
    if Str.startswith "//" path && negb (Str.startswith "///" path)
    then 2 else 1
  else 0.

(** One round of the loop of [normpath].  [new_comps] is kept as a stack,
    its last element first. *)
Definition normpath_step (slashes : nat) (new_comps : list string)
           (comp : string) : list string :=
  if (comp =? "") || (comp =? ".") then new_comps
  else if negb (comp =? "..")
          || ((slashes =? 0)%nat && match new_comps with [] => true | _ => false end)
          || match new_comps with top :: _ => top =? ".." | [] => false end
       then comp :: new_comps
       else match new_comps with
            | _ :: rest => rest
            | [] => []
            end.

Definition normpath_comps (slashes : nat) (path : string) : list string :=
  fold_left (normpath_step slashes) (Str.split path) [].

Fixpoint slashes_string (n : nat) : string :=
  match n with
  | O => ""
  | S m => String Str.sep (slashes_string m)
  end.

(** [posixpath.normpath]. *)
Definition normpath (path : string) : string :=
  if path =? "" then "."
  else
    let slashes := initial_slashes path in
    let comps := rev (normpath_comps slashes path) in
    let path' := slashes_string slashes ++ Str.join comps in
    if path' =? "" then "." else path'.

End PosixPath.

(** ** werkzeug.utils.safe_join *)

(** [safe_join(directory, filename)] on a POSIX host, where [os.sep] is the
    only separator: [None] when the normalised [filename] is absolute or
    starts by climbing to the parent directory. *)
Definition safe_join (directory filename : string) : option string :=
  let directory := if directory =? "" then "." else directory in
  let filename :=
    if filename =? "" then filename else PosixPath.normpath filename in
  if PosixPath.isabs filename
     || Str.startswith "/" filename
     || (filename =? "..")
     || Str.startswith "../" filename
  then None
  else Some (PosixPath.join directory filename).

(** ** urllib.parse.unquote *)

Module Urllib.

(** The value of a character of [_hexdig], the hexadecimal digits in
    either case. *)
Definition hexdig (c : ascii) : option nat :=
  let n := nat_of_ascii c in
  if ((48 <=? n) && (n <=? 57))%nat then Some (n - 48)
  else if ((65 <=? n) && (n <=? 70))%nat then Some (n - 55)
  else if ((97 <=? n) && (n <=? 102))%nat then Some (n - 87)
  else None.

(** [unquote_to_bytes]: a percent sign followed by two hexadecimal
    digits becomes the byte they spell; every other character is kept.
    (The library splits at the percent signs and looks the two characters
    after each one up in [_hextobyte].) *)
Fixpoint unquote_to_bytes (s : string) : string :=
  match s with
  | EmptyString => EmptyString
  | String c r =>
      if Ascii.eqb c "%" then
        match r with
        | String a (String b rest) =>
            match hexdig a, hexdig b with
            | Some x, Some y =>
                String (ascii_of_nat (16 * x + y)) (unquote_to_bytes rest)
            | _, _ => String c (unquote_to_bytes r)
            end
        | _ => String c (unquote_to_bytes r)
        end
      else String c (unquote_to_bytes r)
  end.

Definition is_ascii (c : ascii) : bool := (nat_of_ascii c <? 128)%nat.

(** A UTF-8 continuation byte, 0x80 to 0xBF. *)
Definition continuation (c : ascii) : bool :=
  let n := nat_of_ascii c in ((128 <=? n) && (n <? 192))%nat.

(** The second byte allowed after the lead byte [b] of a three-byte
    sequence: no overlong form after 0xE0, no surrogate after 0xED. *)
Definition second_of_three (b c : ascii) : bool :=
  let n := nat_of_ascii b in
  let m := nat_of_ascii c in
  continuation c
  && negb ((n =? 224)%nat && (m <? 160)%nat)
  && negb ((n =? 237)%nat && (160 <=? m)%nat).

(** The second byte allowed after the lead byte [b] of a four-byte
    sequence: no overlong form after 0xF0, nothing above U+10FFFF after
    0xF4. *)
Definition second_of_four (b c : ascii) : bool :=
  let n := nat_of_ascii b in
  let m := nat_of_ascii c in
  continuation c
  && negb ((n =? 240)%nat && (m <? 144)%nat)
  && negb ((n =? 244)%nat && (144 <=? m)%nat).

(** U+FFFD REPLACEMENT CHARACTER, in UTF-8. *)
Definition replacement : string :=
  String (ascii_of_nat 239) (String (ascii_of_nat 191)
    (String (ascii_of_nat 189) EmptyString)).

(** [bytes.decode("utf-8", "replace")], the result again in UTF-8: a
    well-formed sequence is kept, and each maximal ill-formed run (a prefix
    of a well-formed sequence, or a single byte) becomes U+FFFD. *)
Fixpoint decode_replace (s : string) : string :=
  match s with
  | EmptyString => EmptyString
  | String b r =>
      let n := nat_of_ascii b in
      if (n <? 128)%nat then String b (decode_replace r)
      else if (n <? 194)%nat then replacement ++ decode_replace r
      else if (n <? 224)%nat then
        match r with
        | EmptyString => replacement
        | String c2 r2 =>
            if continuation c2
            then String b (String c2 (decode_replace r2))
            else replacement ++ decode_replace r
        end
      else if (n <? 240)%nat then
        match r with
        | EmptyString => replacement
        | String c2 r2 =>
            if second_of_three b c2 then
              match r2 with
              | EmptyString => replacement
              | String c3 r3 =>
                  if continuation c3
                  then String b (String c2 (String c3 (decode_replace r3)))
                  else replacement ++ decode_replace r2
              end
            else replacement ++ decode_replace r
        end
      else if (n <? 245)%nat then
        match r with
        | EmptyString => replacement
        | String c2 r2 =>
            if second_of_four b c2 then
              match r2 with
              | EmptyString => replacement
              | String c3 r3 =>
                  if continuation c3 then
                    match r3 with
                    | EmptyString => replacement
                    | String c4 r4 =>
                        if continuation c4
                        then String b (String c2 (String c3
                               (String c4 (decode_replace r4))))
                        else replacement ++ decode_replace r3
                    end
                  else replacement ++ decode_replace r2
              end
            else replacement ++ decode_replace r
        end
      else replacement ++ decode_replace r
  end.

(** What [unquote] makes of one maximal run of ASCII characters (a match
    of [_asciire]). *)
Definition unquote_run (run : string) : string :=
  decode_replace (unquote_to_bytes run).

(** The loop of [unquote] over the pieces of [_asciire.split]: [run] is
    the ASCII run read so far; a character beyond ASCII ends it and is
    copied. *)
Fixpoint unquote_pieces (s run : string) : string :=
  match s with
  | EmptyString => unquote_run run
  | String c r =>
      if is_ascii c then unquote_pieces r (run ++ String c EmptyString)
      else unquote_run run ++ String c (unquote_pieces r EmptyString)
  end.

(** [urllib.parse.unquote(string)], with the default [encoding="utf-8"]
    and [errors="replace"]. *)
Definition unquote (s : string) : string :=
  if Str.contains "%" s then unquote_pieces s EmptyString else s.

End Urllib.

(** ** Exceptions *)

(** The exceptions the handlers can meet.  All of them derive from
    [Exception]; [HTTPException code] is what [abort(code)] raises, and
    Flask answers it with that status; [UnicodeEncodeError] is what [print]
    raises for a character the encoding of the standard output lacks. *)
Inductive exn : Type :=
| TypeError
| OSError
| UnicodeEncodeError
| HTTPException (code : nat).

(** A computation either returns or raises. *)
Inductive result (A : Type) : Type :=
| Ret (a : A)
| Raise (e : exn).

Arguments Ret {A} a.
Arguments Raise {A} e.

Definition bind {A B : Type} (m : result A) (k : A -> result B) : result B :=
  match m with
  | Ret a => k a
  | Raise e => Raise e
  end.

Notation "x <- m ;; k" := (bind m (fun x => k))
  (at level 61, m at next level, right associativity).

(** [try: body / except Exception as e: handler(e)]. *)
Definition try_except {A : Type} (body : result A) (handler : exn -> result A)
  : result A :=
  match body with
  | Ret a => Ret a
  | Raise e => handler e
  end.

(** [flask.abort]. *)
Definition abort {A : Type} (code : nat) : result A :=
  Raise (HTTPException code).

(** ** The file system, as the handlers observe it *)

Inductive file_type : Type :=
| RegularFile
| Directory
| OtherFile.

(** The answers of the operating system during one request.  [None] is a
    failed call: the path is absent, or access is denied, or the device
    fails.
    - [stat p]: the type of the file [p] leads to ([os.stat]);
    - [listdir d]: the names in the directory [d], in the order the
      system lists them ([os.listdir]);
    - [read p]: the bytes of the file [p] ([open(p, "rb")]). *)
Record filesystem : Type := {
  stat : string -> option file_type;
  listdir : string -> option (list string);
  read : string -> option string
}.

(** An existing regular file [p] whose bytes are [body]. *)
Definition file_at (fs : filesystem) (p body : string) : Prop :=
  stat fs p = Some RegularFile /\ read fs p = Some body.

(** A name the system can list in a directory: not empty, no separator,
    and neither of the two special entries. *)
Definition entry_name (f : string) : bool :=
  negb (f =? "") && negb (Str.contains Str.sep f)
  && negb (f =? ".") && negb (f =? "..").

(** Every listing holds entry names only. *)
Definition listings_ok (fs : filesystem) : Prop :=
  forall d l, listdir fs d = Some l -> forallb entry_name l = true.

Module Os.

(** [os.path.exists(p)]: false when [os.stat] fails; [p] may be Python's
    [None], which raises [TypeError]. *)
Definition path_exists (fs : filesystem) (p : option string) : result bool :=
  match p with
  | None => Raise TypeError
  | Some p => Ret (match stat fs p with Some _ => true | None => false end)
  end.

(** [os.path.isfile(p)]. *)
Definition path_isfile (fs : filesystem) (p : option string) : result bool :=
  match p with
  | None => Raise TypeError
  | Some p =>
      Ret (match stat fs p with Some RegularFile => true | _ => false end)
  end.

(** [os.path.basename(p)]. *)
Definition path_basename (p : option string) : result string :=
  match p with
  | None => Raise TypeError
  | Some p => Ret (PosixPath.basename p)
  end.

(** [os.listdir(d)]. *)
Definition os_listdir (fs : filesystem) (d : string) : result (list string) :=
  match listdir fs d with
  | Some l => Ret l
  | None => Raise OSError
  end.

End Os.

(** ** Responses *)

(** The response of a handler that returns: the file at [path], with its
    bytes. *)
Inductive response : Type :=
| FileResponse (path : string) (body : string).

(** [werkzeug.utils.send_file(path)]: opens the file.  The headers of the
    request (conditional and range requests) are outside the model. *)
Definition send_file (fs : filesystem) (path : string) : result response :=
  match read fs path with
  | Some body => Ret (FileResponse path body)
  | None => Raise OSError
  end.

(** [send_from_directory(directory, path)]: joins safely, and raises
    [NotFound] unless the result is a regular file.  (Flask's wrapper also
    joins the application's root path in front, which leaves an absolute
    path as it is; [PROJECT_ROOT] comes from [os.path.abspath].) *)
Definition send_from_directory (fs : filesystem) (directory path : string)
  : result response :=
  match safe_join directory path with
  | None => Raise (HTTPException 404)
  | Some path_str =>
      isfile <- Os.path_isfile fs (Some path_str) ;;
      if negb isfile then Raise (HTTPException 404)
      else send_file fs path_str
  end.

(** ** The handlers of server.py *)

(** [not os.path.exists(safe_path) or not os.path.isfile(safe_path)]; the
    second test runs only when the first says the path exists. *)
Definition not_a_file (fs : filesystem) (safe_path : option string)
  : result bool :=
  e <- Os.path_exists fs safe_path ;;
  if negb e then Ret true
  else f <- Os.path_isfile fs safe_path ;; Ret (negb f).

(** [serve_root_files(filename)], on a standard output that takes every
    line: what the handler returns when none of its [print] calls raises.
    [Logged.serve_root_files] below is the handler with its [print] calls,
    and [quiet_serve_root_files] relates the two. *)
Definition serve_root_files (fs : filesystem) (PROJECT_ROOT filename : string)
  : result response :=
  try_except
    (let safe_path := safe_join PROJECT_ROOT filename in
     missing <- not_a_file fs safe_path ;;
     if missing then abort 404
     else send_from_directory fs PROJECT_ROOT filename)
    (fun _ => abort 404).

(** The two routes of [serve_root_files], on the request path behind the
    leading slash: ['/'] calls the handler without argument, so that
    [filename] takes its default ["index.html"]; ['/<path:filename>'] passes
    the path. *)
Definition route_root (fs : filesystem) (PROJECT_ROOT requestedPath : string)
  : result response :=
  if requestedPath =? "" then serve_root_files fs PROJECT_ROOT "index.html"
  else serve_root_files fs PROJECT_ROOT requestedPath.

(** [str.lower] is a parameter [lower] of what follows: the case tables
    of Unicode it reads are no part of the repository. *)

(** The [for] loop of [serve_scraped_images]: the first listed name [f]
    with [f.lower() == decoded_filename.lower()]. *)
Definition find_case_insensitive (lower : string -> string)
           (decoded_filename : string) (entries : list string)
  : option string :=
  find (fun f => lower f =? lower decoded_filename) entries.

(** The [try] statement of [serve_scraped_images], as a function of the two
    locals [image_dir] and [decoded_filename], on a standard output that
    takes every line ([Logged.serve_scraped_images] is the handler with
    its [print] calls, and [quiet_serve_scraped_images] relates the
    two). *)
Definition serve_image (lower : string -> string) (fs : filesystem)
           (image_dir decoded_filename : string) : result response :=
  try_except
    (let safe_path := safe_join image_dir decoded_filename in
     missing <- not_a_file fs safe_path ;;
     safe_path <-
       (if missing then
          entries <- Os.os_listdir fs image_dir ;;
          match find_case_insensitive lower decoded_filename entries with
          | Some f => Ret (safe_join image_dir f)
          | None => abort 404
          end
        else Ret safe_path) ;;
     name <- Os.path_basename safe_path ;;
     send_from_directory fs image_dir name)
    (fun _ => abort 404).

(** [serve_scraped_images(filename)], on a standard output that takes
    every line. *)
Definition serve_scraped_images (lower : string -> string) (fs : filesystem)
           (PROJECT_ROOT filename : string) : result response :=
  let image_dir := PosixPath.join PROJECT_ROOT "images_scraped" in
  let decoded_filename := Urllib.unquote filename in
  serve_image lower fs image_dir decoded_filename.

(** ** The vocabulary of the specification *)

(** The directory [safe_join] joins to: the empty name stands for the
    current directory. *)
Definition base_dir (root : string) : string :=
  if root =? "" then "." else root.

(** [p] lies lexically in [root]: it is [root] joined with a relative path
    none of whose components is the parent directory. *)
Definition lexically_within (root p : string) : Prop :=
  exists rel,
    p = PosixPath.join (base_dir root) rel
    /\ PosixPath.isabs rel = false
    /\ ~ In ".." (Str.split rel).

(** Reading the components of a relative path from the left, [depth]
    directories below the root: does some [..] climb above the root? *)
Fixpoint climbs (depth : nat) (comps : list string) : bool :=
  match comps with
  | [] => false
  | c :: cs =>
      if (c =? "") || (c =? ".") then climbs depth cs
      else if c =? ".." then
             match depth with
             | O => true
             | S d => climbs d cs
             end
           else climbs (S depth) cs
  end.

(** A requested path whose normalisation leaves the root: an absolute
    path, or one that climbs above the root. *)
Definition escapes_root (requestedPath : string) : bool :=
  PosixPath.isabs requestedPath || climbs 0 (Str.split requestedPath).

(** The direct lookup (step 2): the safe join succeeds and leads to a
    regular file. *)
Definition direct_hit (fs : filesystem) (root requestedPath : string) : bool :=
  match safe_join root requestedPath with
  | Some p => match stat fs p with Some RegularFile => true | _ => false end
  | None => false
  end.

(** The file [name] of [directory], when it is a regular file that can be
    read. *)
Definition lookup_file (fs : filesystem) (directory name : string)
  : option response :=
  match safe_join directory name with
  | Some p =>
      match stat fs p, read fs p with
      | Some RegularFile, Some body => Some (FileResponse p body)
      | _, _ => None
      end
  | None => None
  end.

(** A found file is returned; everything else is a 404. *)
Definition found_or_404 (o : option response) : result response :=
  match o with
  | Some r => Ret r
  | None => Raise (HTTPException 404)
  end.

(** What [serve_image] finds, without the exceptions: the direct lookup,
    then the listing; in both cases the file served is the base name of the
    path found, looked up in [image_dir]. *)
Definition image_lookup (lower : string -> string) (fs : filesystem)
           (image_dir decoded_filename : string) : option response :=
  match safe_join image_dir decoded_filename with
  | None => None
  | Some p =>
      match stat fs p with
      | Some RegularFile => lookup_file fs image_dir (PosixPath.basename p)
      | _ =>
          match listdir fs image_dir with
          | None => None
          | Some entries =>
              match find_case_insensitive lower decoded_filename entries with
              | None => None
              | Some f =>
                  match safe_join image_dir f with
                  | None => None
                  | Some q => lookup_file fs image_dir (PosixPath.basename q)
                  end
              end
          end
      end
  end.

(** The status Flask answers with: 200 for a returned response, the code
    of an [HTTPException], 500 for any other exception. *)
Definition http_status (r : result response) : nat :=
  match r with
  | Ret _ => 200
  | Raise (HTTPException code) => code
  | Raise _ => 500
  end.

(** A percent sign followed by two hexadecimal digits occurs in [s]. *)
Fixpoint has_escape (s : string) : bool :=
  match s with
  | EmptyString => false
  | String c r =>
      (Ascii.eqb c "%"
       && match r with
          | String a (String b _) =>
              match Urllib.hexdig a, Urllib.hexdig b with
              | Some _, Some _ => true
              | _, _ => false
              end
          | _ => false
          end)
      || has_escape r
  end.

(** The number of escapes [unquote_to_bytes] decodes in [s]. *)
Fixpoint escape_count (s : string) : nat :=
  match s with
  | EmptyString => 0
  | String c r =>
      if Ascii.eqb c "%" then
        match r with
        | String a (String b rest) =>
            match Urllib.hexdig a, Urllib.hexdig b with
            | Some _, Some _ => S (escape_count rest)
            | _, _ => escape_count r
            end
        | _ => escape_count r
        end
      else escape_count r
  end.

(** The number of ASCII bytes of [s]. *)
Fixpoint ascii_count (s : string) : nat :=
  match s with
  | EmptyString => 0
  | String c r => (if Urllib.is_ascii c then 1 else 0) + ascii_count r
  end.

(** Every byte of [s] is an ASCII character. *)
Fixpoint ascii_only (s : string) : bool :=
  match s with
  | EmptyString => true
  | String c r => Urllib.is_ascii c && ascii_only r
  end.

(** The number of ASCII bytes of the path that joins the components [l],
    plus one. *)
Fixpoint weight (l : list string) : nat :=
  match l with
  | [] => 0
  | x :: l' => ascii_count x + 1 + weight l'
  end.

(** ** A file system given by a table *)

Inductive node : Type :=
| File (body : string)
| Folder (names : list string).

Definition table : Type := list (string * node).

Fixpoint lookup (t : table) (p : string) : option node :=
  match t with
  | [] => None
  | (q, n) :: t' => if q =? p then Some n else lookup t' p
  end.

(** The file system that holds exactly the paths of the table, each under
    the spelling of the table. *)
Definition fs_of_table (t : table) : filesystem := {|
  stat := fun p =>
    match lookup t p with
    | Some (File _) => Some RegularFile
    | Some (Folder _) => Some Directory
    | None => None
    end;
  listdir := fun d =>
    match lookup t d with
    | Some (Folder names) => Some names
    | _ => None
    end;
  read := fun p =>
    match lookup t p with
    | Some (File body) => Some body
    | _ => None
    end
|}.

Definition table_ok (t : table) : bool :=
  forallb (fun e => match snd e with
                    | Folder names => forallb entry_name names
                    | File _ => true
                    end) t.

(** A project directory [/srv/app] on a case-sensitive file system. *)
Definition site : table := [
  ("/srv/app", Folder ["index.html"; "assets"; "images_scraped"]);
  ("/srv/app/index.html", File "<html>");
  ("/srv/app/assets", Folder ["app.js"]);
  ("/srv/app/assets/app.js", File "js");
  ("/srv/app/images_scraped",
     Folder ["Photo.JPG"; "Archive"; "thumbs"; "Thumbs"; "gallery";
             "a%20b.jpg"; "z.png"]);
  ("/srv/app/images_scraped/Photo.JPG", File "jpeg");
  ("/srv/app/images_scraped/Archive", Folder []);
  ("/srv/app/images_scraped/thumbs", File "t");
  ("/srv/app/images_scraped/Thumbs", Folder []);
  ("/srv/app/images_scraped/gallery", Folder ["b.jpg"; "z.png"]);
  ("/srv/app/images_scraped/gallery/b.jpg", File "nested");
  ("/srv/app/images_scraped/gallery/z.png", File "nested z");
  ("/srv/app/images_scraped/a%20b.jpg", File "percent");
  ("/srv/app/images_scraped/z.png", File "png")
].

Definition site_fs : filesystem := fs_of_table site.

(** The same project without its [index.html]. *)
Definition bare : table := [
  ("/srv/app", Folder ["images_scraped"]);
  ("/srv/app/images_scraped", Folder [])
].

Definition bare_fs : filesystem := fs_of_table bare.

(** A component that [normpath] keeps above the leading [..]s of its
    stack: a piece of the split path other than [..]. *)
Definition plain (c : string) : Prop :=
  c <> ".." /\ Str.contains Str.sep c = false.

(** ** The project root *)

(** [p[:i]] for [i] just behind the last separator of [p]: the part of
    [p] up to and with its last separator, empty when there is none. *)
Fixpoint up_to_last_sep (p : string) : string :=
  match p with
  | EmptyString => EmptyString
  | String c r =>
      if Str.contains Str.sep r then String c (up_to_last_sep r)
      else if Ascii.eqb c Str.sep then String c EmptyString
      else EmptyString
  end.

(** [s == "/" * len(s)]. *)
Fixpoint all_sep (s : string) : bool :=
  match s with
  | EmptyString => true
  | String c r => Ascii.eqb c Str.sep && all_sep r
  end.

(** [s.rstrip("/")]. *)
Fixpoint rstrip_sep (s : string) : string :=
  match s with
  | EmptyString => EmptyString
  | String c r =>
      let r' := rstrip_sep r in
      if (r' =? "") && Ascii.eqb c Str.sep then EmptyString
      else String c r'
  end.

(** [posixpath.dirname]. *)
Definition dirname (p : string) : string :=
  let head := up_to_last_sep p in
  if negb (head =? "") && negb (all_sep head) then rstrip_sep head
  else head.

(** [posixpath.abspath], in the working directory [cwd] (the answer of
    [os.getcwd()]). *)
Definition abspath (cwd path : string) : string :=
  PosixPath.normpath
    (if PosixPath.isabs path then path else PosixPath.join cwd path).

(** [PROJECT_ROOT = os.path.dirname(os.path.abspath(__file__))], for the
    working directory [cwd] and the value [file] of [__file__]. *)
Definition project_root (cwd file : string) : string :=
  dirname (abspath cwd file).

(** [fs] with another listing [l] of the directory [d]. *)
Definition with_listing (fs : filesystem) (d : string) (l : list string)
  : filesystem := {|
  stat := stat fs;
  listdir := fun d' => if d' =? d then Some l else listdir fs d';
  read := read fs
|}.

(** The test of the [for] loop: [f.lower() == decoded_filename.lower()]. *)
Definition same_up_to_case (lower : string -> string)
           (decoded_filename f : string) : bool :=
  lower f =? lower decoded_filename.

(** What the properties below use of [str.lower]: a string that equals an
    entry name up to case is an entry name.  ([str.lower] maps no
    character to or from a separator or a dot, and no character to
    nothing.) *)
Definition case_keeps_entry_names (lower : string -> string) : Prop :=
  forall a b, lower a = lower b -> entry_name a = entry_name b.

(** Two views of the file system with the same directory contents: the
    same file types and bytes, and listings that hold the same names, in
    whatever order. *)
Definition same_contents (fs1 fs2 : filesystem) : Prop :=
  (forall p, stat fs1 p = stat fs2 p)
  /\ (forall p, read fs1 p = read fs2 p)
  /\ (forall d,
         match listdir fs1 d, listdir fs2 d with
         | Some l1, Some l2 => Permutation l1 l2
         | None, None => True
         | _, _ => False
         end).

(** An image directory that holds a file [a%20b.jpg] and a file
    [a b.jpg]. *)
Definition percent_site : table := [
  ("/srv/app", Folder ["images_scraped"]);
  ("/srv/app/images_scraped", Folder ["a%20b.jpg"; "a b.jpg"]);
  ("/srv/app/images_scraped/a%20b.jpg", File "percent");
  ("/srv/app/images_scraped/a b.jpg", File "space")
].

Definition percent_fs : filesystem := fs_of_table percent_site.

(** ** The handlers with their log *)

(** The lines the handlers print, one constructor for each [print] of a
    handler, with the values the line shows. *)
Inductive log_line : Type :=
| RootNotFound (safe_path : option string)
| ServingRoot (safe_path : option string)
| RootError (filename : string) (e : exn)
| Attempting (decoded_filename image_dir : string)
| ImageNotFound (safe_path : option string)
| FoundCaseInsensitively (safe_path : option string)
| ServingImage (safe_path : option string)
| ImageError (decoded_filename : string) (e : exn).

(** The standard output: for the lines printed so far and the next line,
    [None] when [print] writes the line, or the exception it raises (an
    encoding that lacks a character of the line, a closed pipe). *)
Definition stdout : Type := list log_line -> log_line -> option exn.

(** A computation that prints: from the lines printed so far to the lines
    printed after it, and its result. *)
Definition io (A : Type) : Type :=
  list log_line -> list log_line * result A.

Module Logged.

Definition ret {A : Type} (a : A) : io A := fun log => (log, Ret a).

(** A computation that prints nothing. *)
Definition lift {A : Type} (r : result A) : io A := fun log => (log, r).

Definition bind {A B : Type} (m : io A) (k : A -> io B) : io B :=
  fun log =>
    match m log with
    | (log', Ret a) => k a log'
    | (log', Raise e) => (log', Raise e)
    end.

Notation "x <~ m ;; k" := (bind m (fun x => k))
  (at level 61, m at next level, right associativity).

(** [print(line)]. *)
Definition print (out : stdout) (line : log_line) : io unit :=
  fun log =>
    match out log line with
    | None => ((log ++ [line])%list, Ret tt)
    | Some e => (log, Raise e)
    end.

(** [try: body / except Exception as e: handler(e)]. *)
Definition try_except {A : Type} (body : io A) (handler : exn -> io A)
  : io A :=
  fun log =>
    match body log with
    | (log', Ret a) => (log', Ret a)
    | (log', Raise e) => handler e log'
    end.

(** [serve_root_files(filename)], lines 15 to 26. *)
Definition serve_root_files (out : stdout) (fs : filesystem)
           (PROJECT_ROOT filename : string) : io response :=
  try_except
    (let safe_path := safe_join PROJECT_ROOT filename in
     missing <~ lift (not_a_file fs safe_path) ;;
     if missing then
       _ <~ print out (RootNotFound safe_path) ;;
       lift (abort 404)
     else
       _ <~ print out (ServingRoot safe_path) ;;
       lift (send_from_directory fs PROJECT_ROOT filename))
    (fun e =>
       _ <~ print out (RootError filename e) ;;
       lift (abort 404)).

(** The two routes of [serve_root_files]. *)
Definition route_root (out : stdout) (fs : filesystem)
           (PROJECT_ROOT requestedPath : string) : io response :=
  if requestedPath =? ""
  then serve_root_files out fs PROJECT_ROOT "index.html"
  else serve_root_files out fs PROJECT_ROOT requestedPath.

(** [serve_scraped_images(filename)], lines 30 to 59: the first [print]
    stands before the [try]. *)
Definition serve_scraped_images (out : stdout) (lower : string -> string)
           (fs : filesystem) (PROJECT_ROOT filename : string) : io response :=
  let image_dir := PosixPath.join PROJECT_ROOT "images_scraped" in
  let decoded_filename := Urllib.unquote filename in
  _ <~ print out (Attempting decoded_filename image_dir) ;;
  try_except
    (let safe_path := safe_join image_dir decoded_filename in
     missing <~ lift (not_a_file fs safe_path) ;;
     safe_path <~
       (if missing then
          _ <~ print out (ImageNotFound safe_path) ;;
          entries <~ lift (Os.os_listdir fs image_dir) ;;
          match find_case_insensitive lower decoded_filename entries with
          | Some f =>
              let safe_path := safe_join image_dir f in
              _ <~ print out (FoundCaseInsensitively safe_path) ;;
              ret safe_path
          | None => lift (abort 404)
          end
        else ret safe_path) ;;
     _ <~ print out (ServingImage safe_path) ;;
     name <~ lift (Os.path_basename safe_path) ;;
     lift (send_from_directory fs image_dir name))
    (fun e =>
       _ <~ print out (ImageError decoded_filename e) ;;
       lift (abort 404)).

End Logged.

(** A standard output that takes every line. *)
Definition quiet (out : stdout) : Prop := forall log line, out log line = None.

(** The names a line shows. *)
Definition shown (line : log_line) : list string :=
  let path (p : option string) :=
    match p with Some q => [q] | None => [] end in
  match line with
  | RootNotFound p | ServingRoot p | ImageNotFound p
  | FoundCaseInsensitively p | ServingImage p => path p
  | RootError name _ | ImageError name _ => [name]
  | Attempting name image_dir => [name; image_dir]
  end.

(** A standard output encoded in ASCII: [print] raises
    [UnicodeEncodeError] on a line that shows a name with a character
    beyond ASCII.  (The text of an exception, which two of the lines show
    as well, is taken to be ASCII, as it is below a project root whose
    name is.) *)
Definition ascii_stdout : stdout :=
  fun _ line =>
    if forallb ascii_only (shown line) then None
    else Some UnicodeEncodeError.

(** A standard output encoded in UTF-8 takes every line. *)
Definition utf8_stdout : stdout := fun _ _ => None.

(** The name [cafe], its last letter with an acute accent (the bytes 195
    and 169 in UTF-8), with an extension. *)
Definition cafe (extension : string) : string :=
  "caf" ++ String (ascii_of_nat 195) (String (ascii_of_nat 169) extension).

(** The two outcomes of a missing or a found file: the bytes of an
    existing regular file, or the 404 of [abort]. *)
Definition file_or_404 (fs : filesystem) (r : result response) : Prop :=
  (exists p body, r = Ret (FileResponse p body) /\ file_at fs p body)
  \/ r = Raise (HTTPException 404).

(** The exception [r] raises is one a [print] raised. *)
Definition raised_by_print (out : stdout) (r : result response) : Prop :=
  exists printed line e, out printed line = Some e /\ r = Raise e.

(** * Properties *)

(** ** Strings *)

Section StringFacts.

Lemma split_not_nil (s : string) : Str.split s <> [].
Proof.
  destruct s as [|c r]; simpl; [discriminate|].
  destruct (Ascii.eqb c Str.sep); [discriminate|].
  destruct (Str.split r); discriminate.
Qed.

Lemma split_cons_other (c : ascii) (r : string) :
  Ascii.eqb c Str.sep = false ->
  exists h t, Str.split r = h :: t /\ Str.split (String c r) = String c h :: t.
Proof.
  intros Hc. simpl. rewrite Hc.
  destruct (Str.split r) as [|h t] eqn:E.
  - exfalso. exact (split_not_nil r E).
  - exists h, t. split; reflexivity.
Qed.

Lemma split_no_sep (s : string) :
  Forall (fun c => Str.contains Str.sep c = false) (Str.split s).
Proof.
  induction s as [|c r IH].
  - simpl. constructor; [reflexivity|constructor].
  - destruct (Ascii.eqb c Str.sep) eqn:Hc.
    + simpl. rewrite Hc. constructor; [reflexivity|exact IH].
    + destruct (split_cons_other c r Hc) as (h & t & Hr & Hs).
      rewrite Hs. rewrite Hr in IH. inversion IH; subst.
      constructor; [|assumption].
      simpl. rewrite Hc. assumption.
Qed.

Lemma split_without_sep (s : string) :
  Str.contains Str.sep s = false -> Str.split s = [s].
Proof.
  induction s as [|c r IH]; simpl; [reflexivity|].
  intros H. apply orb_false_iff in H. destruct H as [Hc Hr].
  rewrite Hc, (IH Hr). reflexivity.
Qed.

Lemma split_app_sep (a b : string) :
  Str.split (a ++ String Str.sep b) = (Str.split a ++ Str.split b)%list.
Proof.
  induction a as [|c r IH]; simpl.
  - reflexivity.
  - destruct (Ascii.eqb c Str.sep).
    + rewrite IH. reflexivity.
    + rewrite IH. destruct (Str.split r) as [|h t] eqn:E.
      * exfalso. exact (split_not_nil r E).
      * reflexivity.
Qed.


Lemma join_cons (x : string) (l : list string) :
  Str.join (x :: l) =
  match l with [] => x | _ :: _ => x ++ String Str.sep (Str.join l) end.
Proof. destruct l; reflexivity. Qed.

Lemma split_join (l : list string) :
  l <> [] ->
  Forall (fun c => Str.contains Str.sep c = false) l ->
  Str.split (Str.join l) = l.
Proof.
  induction l as [|x l IH]; intros Hne Hall; [congruence|].
  inversion Hall as [|? ? Hx Hl]; subst.
  rewrite join_cons. destruct l as [|y l'].
  - apply split_without_sep; assumption.
  - rewrite split_app_sep, (split_without_sep x Hx), IH; auto. discriminate.
Qed.


Lemma startswith_contains (c : ascii) (p s : string) :
  Str.startswith (String c p) s = true -> Str.contains c s = true.
Proof.
  destruct s as [|d r]; simpl; [discriminate|].
  intros H. apply andb_true_iff in H. destruct H as [H _].
  apply Ascii.eqb_eq in H. subst. rewrite Ascii.eqb_refl. reflexivity.
Qed.

Lemma startswith_sep (c : ascii) (r : string) :
  Str.startswith "/" (String c r) = Ascii.eqb c Str.sep.
Proof.
  cbn [Str.startswith]. rewrite andb_true_r. apply Ascii.eqb_sym.
Qed.


Lemma endswith_sep_app (a : string) :
  Str.endswith_sep a = true -> exists a0, a = a0 ++ String Str.sep "".
Proof.
  induction a as [|c r IH]; simpl; [discriminate|].
  destruct r as [|d r'].
  - intros H. apply Ascii.eqb_eq in H. subst. exists "". reflexivity.
  - intros H. destruct (IH H) as [a0 E]. exists (String c a0).
    simpl. rewrite <- E. reflexivity.
Qed.

Lemma append_assoc (a b c : string) : (a ++ b) ++ c = a ++ (b ++ c).
Proof. induction a as [|x a IH]; simpl; [reflexivity|now rewrite IH]. Qed.

Lemma append_nil_r (a : string) : a ++ "" = a.
Proof. induction a as [|x a IH]; simpl; [reflexivity|now rewrite IH]. Qed.

Lemma append_inj_l (a x y : string) : a ++ x = a ++ y -> x = y.
Proof.
  induction a as [|c a IH]; simpl; intros H; [assumption|].
  injection H as H. auto.
Qed.

End StringFacts.

(** ** Normalisation and the safe join *)

Section SafeJoin.

Lemma rev_repeat_same {A : Type} (x : A) (n : nat) :
  rev (repeat x n) = repeat x n.
Proof.
  induction n as [|n IH]; simpl; [reflexivity|].
  rewrite IH. clear IH. induction n as [|n IH]; simpl; [reflexivity|].
  rewrite IH. reflexivity.
Qed.

(** One round of [normpath] on a relative path, the stack being some
    plain names above [k] parent directories. *)
Lemma normpath_step_rel (c : string) (names : list string) (k : nat) :
  Forall plain names ->
  PosixPath.normpath_step 0 (names ++ repeat ".." k)%list c =
  if (c =? "") || (c =? ".") then (names ++ repeat ".." k)%list
  else if c =? ".." then
         match names with
         | [] => repeat ".." (S k)
         | _ :: ns => (ns ++ repeat ".." k)%list
         end
       else ((c :: names) ++ repeat ".." k)%list.
Proof.
  intros Hn. unfold PosixPath.normpath_step.
  destruct ((c =? "") || (c =? ".")); [reflexivity|].
  destruct (c =? "..") eqn:Hc; simpl.
  - apply String.eqb_eq in Hc. subst c.
    destruct names as [|n ns]; simpl.
    + destruct k; reflexivity.
    + inversion Hn as [|? ? [Hne _] _]; subst.
      apply String.eqb_neq in Hne. rewrite Hne. reflexivity.
  - reflexivity.
Qed.

Lemma normpath_fold_rel (comps : list string) :
  forall (names : list string) (k : nat),
    Forall plain names ->
    Forall (fun c => Str.contains Str.sep c = false) comps ->
    exists names' k',
      fold_left (PosixPath.normpath_step 0) comps
                (names ++ repeat ".." k)%list
      = (names' ++ repeat ".." k')%list
      /\ Forall plain names'
      /\ (k' = 0 <-> k = 0 /\ climbs (List.length names) comps = false).
Proof.
  induction comps as [|c cs IH]; intros names k Hn Hc.
  - exists names, k. simpl. repeat split; auto. intros [H _]. exact H.
  - inversion Hc as [|? ? Hc1 Hcs]; subst.
    cbn [fold_left climbs]. rewrite (normpath_step_rel c names k Hn).
    destruct ((c =? "") || (c =? ".")).
    + apply IH; assumption.
    + destruct (c =? "..") eqn:Hdd.
      * destruct names as [|n ns].
        -- destruct (IH [] (S k) (Forall_nil _) Hcs) as (n' & k' & E & P & I).
           exists n', k'. split; [exact E|]. split; [exact P|].
           simpl. split.
           ++ intros H. apply I in H. destruct H. discriminate.
           ++ intros [_ H]. discriminate.
        -- inversion Hn; subst.
           destruct (IH ns k ltac:(assumption) Hcs) as (n' & k' & E & P & I).
           exists n', k'. repeat split; try assumption; apply I; assumption.
      * assert (Hp : plain c).
        { split; [|assumption]. apply String.eqb_neq. assumption. }
        destruct (IH (c :: names) k (Forall_cons _ Hp Hn) Hcs)
          as (n' & k' & E & P & I).
        exists n', k'. repeat split; try assumption; apply I; assumption.
Qed.

Lemma initial_slashes_rel (path : string) :
  PosixPath.isabs path = false -> PosixPath.initial_slashes path = 0.
Proof.
  unfold PosixPath.isabs, PosixPath.initial_slashes. intros ->. reflexivity.
Qed.

(** The components [normpath] leaves of a relative path: [k'] parent
    directories, then plain names; [k'] is positive exactly when the
    path climbs above its starting point. *)
Lemma normpath_rel (path : string) :
  path <> "" ->
  PosixPath.isabs path = false ->
  exists names k,
    PosixPath.normpath path =
    (let p := Str.join (repeat ".." k ++ names) in
     if p =? "" then "." else p)
    /\ Forall plain names
    /\ (k = 0 <-> climbs 0 (Str.split path) = false).
Proof.
  intros Hne Hrel.
  destruct (normpath_fold_rel (Str.split path) [] 0 (Forall_nil _)
                              (split_no_sep path))
    as (names & k & E & P & I).
  exists (rev names), k. split; [|split].
  - unfold PosixPath.normpath. apply String.eqb_neq in Hne. rewrite Hne.
    rewrite (initial_slashes_rel path Hrel).
    unfold PosixPath.normpath_comps. simpl in E. rewrite E.
    rewrite rev_app_distr, rev_repeat_same. reflexivity.
  - apply Forall_rev. exact P.
  - rewrite I. simpl. split; [intros [_ H]; exact H|auto].
Qed.

Lemma join_dotdot_head (l : list string) :
  Str.join (".." :: l) = ".."
  \/ Str.startswith "../" (Str.join (".." :: l)) = true.
Proof.
  rewrite join_cons. destruct l; [left; reflexivity|right; reflexivity].
Qed.

Lemma normpath_abs (path : string) :
  PosixPath.isabs path = true ->
  PosixPath.isabs (PosixPath.normpath path) = true.
Proof.
  intros Habs. unfold PosixPath.normpath.
  destruct path as [|c r]; [discriminate|]. simpl (_ =? _).
  unfold PosixPath.initial_slashes.
  unfold PosixPath.isabs in Habs. rewrite Habs.
  destruct (_ && _); reflexivity.
Qed.

(** The defence: a path that leaves the root is refused. *)
Lemma safe_join_escapes (root requestedPath : string) :
  escapes_root requestedPath = true -> safe_join root requestedPath = None.
Proof.
  unfold escapes_root, safe_join. intros H.
  destruct (requestedPath =? "") eqn:He.
  - apply String.eqb_eq in He. subst. discriminate.
  - apply String.eqb_neq in He.
    destruct (PosixPath.isabs requestedPath) eqn:Habs.
    + rewrite (normpath_abs _ Habs). reflexivity.
    + simpl in H.
      destruct (normpath_rel requestedPath He Habs) as (names & k & E & _ & I).
      destruct k as [|k].
      * destruct I as [I _]. rewrite (I eq_refl) in H. discriminate.
      * rewrite E. cbn zeta. cbn [repeat app].
        destruct (join_dotdot_head (repeat ".." k ++ names)) as [J|J].
        -- rewrite J. reflexivity.
        -- destruct (Str.join _) as [|c r] eqn:EJ; [discriminate|].
           simpl (String c r =? ""). cbv iota.
           rewrite J. rewrite !orb_true_r. reflexivity.
Qed.

Lemma plain_not_dotdot (names : list string) :
  Forall plain names -> ~ In ".." names.
Proof.
  intros H Hin. rewrite Forall_forall in H. destruct (H _ Hin) as [Hne _].
  congruence.
Qed.

Lemma plain_no_sep (names : list string) :
  Forall plain names ->
  Forall (fun c => Str.contains Str.sep c = false) names.
Proof. apply Forall_impl. intros a [_ H]. exact H. Qed.

(** Containment: whatever [safe_join] returns lies in the directory. *)
Lemma safe_join_within (root requestedPath p : string) :
  safe_join root requestedPath = Some p -> lexically_within root p.
Proof.
  unfold safe_join. fold (base_dir root).
  destruct (requestedPath =? "") eqn:He.
  - apply String.eqb_eq in He. subst. simpl. intros H. injection H as <-.
    exists "". repeat split; simpl; intuition discriminate.
  - apply String.eqb_neq in He.
    destruct (PosixPath.isabs requestedPath) eqn:Habs.
    + rewrite (normpath_abs _ Habs). discriminate.
    + destruct (normpath_rel requestedPath He Habs) as (names & k & E & P & _).
      destruct (PosixPath.isabs (PosixPath.normpath requestedPath)) eqn:Ha;
        [discriminate|].
      destruct (Str.startswith "/" _) eqn:Hs; [discriminate|].
      destruct (_ =? "..") eqn:Hd; [discriminate|].
      destruct (Str.startswith "../" _) eqn:Ht; [discriminate|].
      simpl. intros H. injection H as <-.
      exists (PosixPath.normpath requestedPath).
      split; [reflexivity|]. split; [exact Ha|].
      rewrite E in *. cbn zeta in *.
      destruct k as [|k].
      * simpl app in *. destruct names as [|n ns].
        -- simpl. intuition discriminate.
        -- destruct (Str.join (n :: ns) =? "") eqn:Hj.
           ++ simpl. intuition discriminate.
           ++ rewrite split_join; [|discriminate|apply plain_no_sep; exact P].
              apply plain_not_dotdot. exact P.
      * exfalso. cbn [repeat app] in *.
        destruct (join_dotdot_head (repeat ".." k ++ names)) as [J|J].
        -- rewrite J in Hd. discriminate.
        -- destruct (Str.join _) as [|c r] eqn:EJ; [discriminate|].
           simpl (String c r =? "") in *. cbv iota in *. congruence.
Qed.

End SafeJoin.

(** ** Paths made of entry names *)

Section EntryNames.

Lemma entry_name_inv (f : string) :
  entry_name f = true ->
  f <> "" /\ Str.contains Str.sep f = false /\ f <> "." /\ f <> "..".
Proof.
  unfold entry_name. intros H.
  repeat (apply andb_true_iff in H; destruct H as [H ?]).
  repeat match goal with
         | X : negb _ = true |- _ => apply negb_true_iff in X
         end.
  repeat split; try apply String.eqb_neq; assumption.
Qed.

Lemma startswith_inv (p s : string) :
  Str.startswith p s = true -> exists r, s = p ++ r.
Proof.
  revert s. induction p as [|c p IH]; intros s H.
  - exists s. reflexivity.
  - destruct s as [|d s]; simpl in H; [discriminate|].
    apply andb_true_iff in H. destruct H as [Hc Hs].
    apply Ascii.eqb_eq in Hc. subst d.
    destruct (IH s Hs) as [r ->]. exists r. reflexivity.
Qed.

Lemma names_fold (names : list string) :
  forall stack,
    forallb entry_name names = true ->
    fold_left (PosixPath.normpath_step 0) names stack
    = (rev names ++ stack)%list.
Proof.
  induction names as [|n ns IH]; intros stack H; simpl; [reflexivity|].
  simpl in H. apply andb_true_iff in H. destruct H as [Hn Hns].
  destruct (entry_name_inv n Hn) as (H1 & _ & H3 & H4).
  unfold PosixPath.normpath_step at 2.
  apply String.eqb_neq in H1, H3, H4. rewrite H1, H3, H4. simpl.
  rewrite (IH _ Hns), <- app_assoc. reflexivity.
Qed.

Lemma names_no_sep (names : list string) :
  forallb entry_name names = true ->
  Forall (fun c => Str.contains Str.sep c = false) names.
Proof.
  rewrite forallb_forall, Forall_forall. intros H x Hx.
  apply entry_name_inv. auto.
Qed.

Lemma join_names_head (names : list string) :
  names <> [] ->
  forallb entry_name names = true ->
  exists c r, Str.join names = String c r /\ Ascii.eqb c Str.sep = false.
Proof.
  destruct names as [|n ns]; [congruence|]. intros _ H.
  simpl in H. apply andb_true_iff in H. destruct H as [Hn _].
  destruct (entry_name_inv n Hn) as (H1 & H2 & _).
  destruct n as [|c r]; [congruence|].
  simpl in H2. apply orb_false_iff in H2. destruct H2 as [H2 _].
  rewrite join_cons. destruct ns; simpl; eauto.
Qed.

(** [normpath] leaves a relative path of entry names as it is. *)
Lemma normpath_names (names : list string) :
  names <> [] ->
  forallb entry_name names = true ->
  PosixPath.normpath (Str.join names) = Str.join names.
Proof.
  intros Hne H.
  destruct (join_names_head names Hne H) as (c & r & E & Hc).
  unfold PosixPath.normpath, PosixPath.normpath_comps.
  rewrite (split_join names Hne (names_no_sep names H)).
  rewrite E. simpl (String c r =? ""). cbv iota.
  rewrite initial_slashes_rel
    by (unfold PosixPath.isabs; rewrite startswith_sep; exact Hc).
  rewrite (names_fold names [] H), app_nil_r, rev_involutive, E.
  reflexivity.
Qed.

(** The safe join accepts every relative path of entry names. *)
Lemma safe_join_names (d : string) (names : list string) :
  names <> [] ->
  forallb entry_name names = true ->
  safe_join d (Str.join names)
  = Some (PosixPath.join (base_dir d) (Str.join names)).
Proof.
  intros Hne H. unfold safe_join. fold (base_dir d).
  destruct (join_names_head names Hne H) as (c & r & E & Hc).
  rewrite (normpath_names names Hne H).
  assert (Hs : Str.startswith "/" (Str.join names) = false).
  { rewrite E, startswith_sep. exact Hc. }
  assert (Hd : (Str.join names =? "..") = false).
  { apply String.eqb_neq. intros Hj.
    pose proof (split_join names Hne (names_no_sep names H)) as S.
    rewrite Hj in S. simpl in S. subst names. discriminate. }
  assert (Ht : Str.startswith "../" (Str.join names) = false).
  { destruct (Str.startswith "../" (Str.join names)) eqn:Hj; [|reflexivity].
    apply startswith_inv in Hj. destruct Hj as [x Hj].
    pose proof (split_join names Hne (names_no_sep names H)) as S.
    rewrite Hj in S. change ("../" ++ x) with (".." ++ String Str.sep x) in S.
    rewrite split_app_sep in S. simpl in S. subst names. discriminate. }
  rewrite E in *. simpl (String c r =? ""). cbv iota.
  unfold PosixPath.isabs. rewrite Hs, Hd, Ht. reflexivity.
Qed.

Lemma safe_join_entry (d f : string) :
  entry_name f = true ->
  safe_join d f = Some (PosixPath.join (base_dir d) f).
Proof.
  intros H. apply (safe_join_names d [f]); [discriminate|].
  simpl. rewrite H. reflexivity.
Qed.

Lemma last_app_cons {A : Type} (l : list A) (x : A) (l' : list A) (d : A) :
  last (l ++ x :: l') d = last (x :: l') d.
Proof.
  induction l as [|y l IH]; [reflexivity|].
  simpl app. rewrite <- IH. simpl. destruct (l ++ x :: l')%list eqn:E.
  - destruct l; discriminate.
  - reflexivity.
Qed.

(** The base name of a directory joined with a name is the name. *)
Lemma basename_join (a f : string) :
  Str.contains Str.sep f = false ->
  PosixPath.basename (PosixPath.join a f) = f.
Proof.
  intros Hf. unfold PosixPath.join, PosixPath.basename.
  destruct (Str.startswith "/" f) eqn:Hs.
  - apply startswith_contains in Hs. change "/"%char with Str.sep in Hs.
    congruence.
  - destruct (a =? "") eqn:Ha; simpl.
    + apply String.eqb_eq in Ha. subst. simpl.
      rewrite (split_without_sep f Hf). reflexivity.
    + destruct (Str.endswith_sep a) eqn:He.
      * apply endswith_sep_app in He. destruct He as [a0 ->].
        rewrite append_assoc. simpl.
        rewrite split_app_sep, (split_without_sep f Hf).
        apply last_app_cons.
      * change (a ++ "/" ++ f) with (a ++ String Str.sep f).
        rewrite split_app_sep, (split_without_sep f Hf).
        apply last_app_cons.
Qed.

(** Joining a relative path to a directory can be undone. *)
Lemma join_inj (a x y : string) :
  PosixPath.isabs x = false -> PosixPath.isabs y = false ->
  PosixPath.join a x = PosixPath.join a y -> x = y.
Proof.
  unfold PosixPath.isabs, PosixPath.join. intros -> ->.
  destruct ((a =? "") || Str.endswith_sep a).
  - apply append_inj_l.
  - intros H. apply append_inj_l in H. injection H as H. exact H.
Qed.

End EntryNames.

(** ** The handlers, without their exceptions *)

Section Handlers.

Variable fs : filesystem.

Lemma send_from_directory_404 (d name : string) :
  try_except (send_from_directory fs d name) (fun _ => abort 404)
  = found_or_404 (lookup_file fs d name).
Proof.
  unfold send_from_directory, lookup_file, send_file.
  destruct (safe_join d name) as [p|]; [|reflexivity]. simpl.
  destruct (stat fs p) as [[| |]|]; try reflexivity. simpl.
  destruct (read fs p); reflexivity.
Qed.

(** [serve_root_files] returns the file the safe join leads to, and
    aborts with 404 in every other case. *)
Lemma serve_root_files_lookup (root filename : string) :
  serve_root_files fs root filename
  = found_or_404 (lookup_file fs root filename).
Proof.
  unfold serve_root_files. rewrite <- send_from_directory_404.
  unfold send_from_directory, not_a_file.
  destruct (safe_join root filename) as [p|]; [|reflexivity]. simpl.
  destruct (stat fs p) as [[| |]|]; reflexivity.
Qed.

Lemma serve_image_lookup (lower : string -> string)
      (image_dir decoded_filename : string) :
  serve_image lower fs image_dir decoded_filename
  = found_or_404 (image_lookup lower fs image_dir decoded_filename).
Proof.
  unfold serve_image, image_lookup, not_a_file, Os.os_listdir.
  destruct (safe_join image_dir decoded_filename) as [p|]; [|reflexivity].
  simpl.
  assert (Hfall :
    try_except
      (safe_path <-
         (entries <- match listdir fs image_dir with
                     | Some l => Ret l
                     | None => Raise OSError
                     end ;;
          match find_case_insensitive lower decoded_filename entries with
          | Some f => Ret (safe_join image_dir f)
          | None => abort 404
          end) ;;
       name <- Os.path_basename safe_path ;;
       send_from_directory fs image_dir name)
      (fun _ => abort 404)
    = found_or_404
        match listdir fs image_dir with
        | None => None
        | Some entries =>
            match find_case_insensitive lower decoded_filename entries with
            | None => None
            | Some f =>
                match safe_join image_dir f with
                | None => None
                | Some q => lookup_file fs image_dir (PosixPath.basename q)
                end
            end
        end).
  { destruct (listdir fs image_dir) as [entries|]; [|reflexivity]. simpl.
    destruct (find_case_insensitive lower decoded_filename entries) as [f|];
      [|reflexivity].
    simpl. destruct (safe_join image_dir f) as [q|]; [|reflexivity].
    simpl. apply send_from_directory_404. }
  destruct (stat fs p) as [[| |]|]; simpl; try exact Hfall.
  apply send_from_directory_404.
Qed.

Lemma lookup_file_found (d name p body : string) :
  lookup_file fs d name = Some (FileResponse p body) ->
  safe_join d name = Some p /\ file_at fs p body.
Proof.
  unfold lookup_file, file_at.
  destruct (safe_join d name) as [q|]; [|discriminate].
  destruct (stat fs q) as [[| |]|] eqn:Hs; try discriminate.
  destruct (read fs q) eqn:Hr; [|discriminate].
  intros H. injection H as <- <-. auto.
Qed.

Lemma lookup_file_at (d name p body : string) :
  safe_join d name = Some p -> file_at fs p body ->
  lookup_file fs d name = Some (FileResponse p body).
Proof.
  unfold lookup_file, file_at. intros -> [-> ->]. reflexivity.
Qed.


(** Whatever [image_lookup] finds is a file of [image_dir]. *)
Lemma image_lookup_found (lower : string -> string) (d name p body : string) :
  image_lookup lower fs d name = Some (FileResponse p body) ->
  exists x, safe_join d x = Some p /\ file_at fs p body.
Proof.
  unfold image_lookup.
  destruct (safe_join d name) as [q|]; [|discriminate].
  assert (Hfall :
    match listdir fs d with
    | None => None
    | Some entries =>
        match find_case_insensitive lower name entries with
        | None => None
        | Some f =>
            match safe_join d f with
            | None => None
            | Some q0 => lookup_file fs d (PosixPath.basename q0)
            end
        end
    end = Some (FileResponse p body) ->
    exists x, safe_join d x = Some p /\ file_at fs p body).
  { destruct (listdir fs d) as [l|]; [|discriminate].
    destruct (find_case_insensitive lower name l) as [f|]; [|discriminate].
    destruct (safe_join d f) as [q0|]; [|discriminate].
    intros H. apply lookup_file_found in H. eauto. }
  destruct (stat fs q) as [[| |]|]; try exact Hfall.
  intros H. apply lookup_file_found in H. eauto.
Qed.

Lemma found_or_404_ret (o : option response) (r : response) :
  found_or_404 o = Ret r -> o = Some r.
Proof. destruct o; simpl; congruence. Qed.

End Handlers.

(** ** Tables *)

Lemma table_listings_ok (t : table) :
  table_ok t = true -> listings_ok (fs_of_table t).
Proof.
  unfold listings_ok, fs_of_table, table_ok. simpl. intros Hok d.
  induction t as [|[q n] t IH]; simpl; [discriminate|].
  simpl in Hok. apply andb_true_iff in Hok. destruct Hok as [Hn Ht].
  destruct (q =? d).
  - destruct n as [body|names]; [discriminate|].
    intros l H. injection H as <-. exact Hn.
  - apply IH. exact Ht.
Qed.

(** ** C1: no path outside the root *)

(** C1.  No variant returns a path outside its root directory: the path of
    every response of [serve_root_files] (also through its routes) lies in
    the project root, and the path of every response of [serve_image] and
    of [serve_scraped_images] lies in the image directory.  A requested
    path whose normalisation leaves the root (an absolute path, or one
    whose [..] components climb above the root) is answered with Not Found
    by both variants; the requested path of the image variant is the
    percent-decoded name. *)
Theorem resolve_never_leaves_root (lower : string -> string)
        (fs : filesystem) (root requestedPath : string) :
  (forall p body,
      serve_root_files fs root requestedPath = Ret (FileResponse p body) ->
      lexically_within root p)
  /\ (forall p body,
         route_root fs root requestedPath = Ret (FileResponse p body) ->
         lexically_within root p)
  /\ (forall p body,
         serve_image lower fs root requestedPath = Ret (FileResponse p body) ->
         lexically_within root p)
  /\ (forall p body,
         serve_scraped_images lower fs root requestedPath
         = Ret (FileResponse p body) ->
         lexically_within (PosixPath.join root "images_scraped") p)
  /\ (escapes_root requestedPath = true ->
      serve_root_files fs root requestedPath = Raise (HTTPException 404)
      /\ route_root fs root requestedPath = Raise (HTTPException 404)
      /\ serve_image lower fs root requestedPath = Raise (HTTPException 404))
  /\ (escapes_root (Urllib.unquote requestedPath) = true ->
      serve_scraped_images lower fs root requestedPath
      = Raise (HTTPException 404)).
Proof.
  assert (Hroot : forall x p body,
             serve_root_files fs root x = Ret (FileResponse p body) ->
             lexically_within root p).
  { intros x p body H. rewrite serve_root_files_lookup in H.
    apply found_or_404_ret, lookup_file_found in H.
    eapply safe_join_within. apply H. }
  assert (Himg : forall d x p body,
             serve_image lower fs d x = Ret (FileResponse p body) ->
             lexically_within d p).
  { intros d x p body H. rewrite serve_image_lookup in H.
    apply found_or_404_ret, image_lookup_found in H.
    destruct H as (y & Hy & _). eapply safe_join_within. exact Hy. }
  assert (Hesc : forall d x, escapes_root x = true ->
             serve_image lower fs d x = Raise (HTTPException 404)).
  { intros d x H. rewrite serve_image_lookup. unfold image_lookup.
    rewrite (safe_join_escapes d x H). reflexivity. }
  repeat split.
  - apply Hroot.
  - unfold route_root. destruct (requestedPath =? ""); apply Hroot.
  - apply Himg.
  - unfold serve_scraped_images. apply Himg.
  - rewrite serve_root_files_lookup. unfold lookup_file.
    rewrite (safe_join_escapes root requestedPath H). reflexivity.
  - unfold route_root. destruct (requestedPath =? "") eqn:E.
    + apply String.eqb_eq in E. subst. discriminate.
    + rewrite serve_root_files_lookup. unfold lookup_file.
      rewrite (safe_join_escapes root requestedPath H). reflexivity.
  - apply Hesc. assumption.
  - intros H. unfold serve_scraped_images. apply Hesc. assumption.
Qed.

(** A traversal out of the image directory of [site], plain and
    percent-encoded once more, and an absolute path: all answered 404. *)
Lemma resolve_never_leaves_root_witness :
  escapes_root "gallery/../../index.html" = true
  /\ serve_image Str.ascii_lower site_fs "/srv/app/images_scraped"
                 "gallery/../../index.html"
     = Raise (HTTPException 404)
  /\ serve_scraped_images Str.ascii_lower site_fs "/srv/app" "%2e%2e/index.html"
     = Raise (HTTPException 404)
  /\ serve_root_files site_fs "/srv/app" "/srv/app/index.html"
     = Raise (HTTPException 404).
Proof.
  split; [reflexivity|]. split; [|split].
  - apply (resolve_never_leaves_root
             Str.ascii_lower site_fs "/srv/app/images_scraped"
             "gallery/../../index.html").
    reflexivity.
  - apply (resolve_never_leaves_root
             Str.ascii_lower site_fs "/srv/app" "%2e%2e/index.html").
    reflexivity.
  - apply (resolve_never_leaves_root
             Str.ascii_lower site_fs "/srv/app" "/srv/app/index.html").
    reflexivity.
Defined.

(** The requested path of the image variant is the decoded name.  The
    input [gallery%2fx/../../z.png] of the handler climbs above the root as
    it stands, but not once decoded: the handler resolves
    [gallery/x/../../z.png] and serves [z.png], a file of the image
    directory. *)
Remark climb_is_judged_after_decoding :
  escapes_root "gallery%2fx/../../z.png" = true
  /\ escapes_root (Urllib.unquote "gallery%2fx/../../z.png") = false
  /\ serve_scraped_images Str.ascii_lower site_fs "/srv/app"
                          "gallery%2fx/../../z.png"
     = Ret (FileResponse "/srv/app/images_scraped/z.png" "png").
Proof. repeat split. Qed.

(** ** C2: a returned path is a regular file of the root *)

(** C2.  Whenever a variant returns a response, its path is an existing
    regular file (whose bytes are the body of the response) and lies in the
    root directory of the variant; this covers the responses selected by
    the case-insensitive fallback of the image variant. *)
Theorem resolved_path_is_file_in_root (lower : string -> string)
        (fs : filesystem) (root requestedPath p body : string) :
  (serve_root_files fs root requestedPath = Ret (FileResponse p body) ->
   file_at fs p body /\ lexically_within root p)
  /\ (route_root fs root requestedPath = Ret (FileResponse p body) ->
      file_at fs p body /\ lexically_within root p)
  /\ (serve_image lower fs root requestedPath = Ret (FileResponse p body) ->
      file_at fs p body /\ lexically_within root p)
  /\ (serve_scraped_images lower fs root requestedPath
      = Ret (FileResponse p body) ->
      file_at fs p body
      /\ lexically_within (PosixPath.join root "images_scraped") p).
Proof.
  assert (Hroot : forall x,
             serve_root_files fs root x = Ret (FileResponse p body) ->
             file_at fs p body /\ lexically_within root p).
  { intros x H. rewrite serve_root_files_lookup in H.
    apply found_or_404_ret, lookup_file_found in H. destruct H as [Hj Hf].
    split; [exact Hf|]. eapply safe_join_within. exact Hj. }
  assert (Himg : forall d x,
             serve_image lower fs d x = Ret (FileResponse p body) ->
             file_at fs p body /\ lexically_within d p).
  { intros d x H. rewrite serve_image_lookup in H.
    apply found_or_404_ret, image_lookup_found in H.
    destruct H as (y & Hy & Hf). split; [exact Hf|].
    eapply safe_join_within. exact Hy. }
  repeat apply conj.
  - apply Hroot.
  - unfold route_root. destruct (requestedPath =? ""); apply Hroot.
  - apply Himg.
  - unfold serve_scraped_images. apply Himg.
Qed.

(** The response to [photo.jpg], found by the fallback, is the regular file
    [Photo.JPG] of the image directory. *)
Lemma resolved_path_is_file_in_root_witness :
  serve_scraped_images Str.ascii_lower site_fs "/srv/app" "photo.jpg"
  = Ret (FileResponse "/srv/app/images_scraped/Photo.JPG" "jpeg")
  /\ file_at site_fs "/srv/app/images_scraped/Photo.JPG" "jpeg"
  /\ lexically_within "/srv/app/images_scraped"
                      "/srv/app/images_scraped/Photo.JPG".
Proof.
  split; [reflexivity|].
  apply (resolved_path_is_file_in_root
           Str.ascii_lower site_fs "/srv/app" "photo.jpg"
           "/srv/app/images_scraped/Photo.JPG" "jpeg").
  reflexivity.
Defined.

(** ** C5: every failure is a 404 *)

(** Whatever the body of a handler does, the [except] clause lets one
    exception out only: the 404 of [abort]. *)
Lemma try_except_404 {A : Type} (body : result A) :
  (exists a, try_except body (fun _ => abort 404) = Ret a /\ body = Ret a)
  \/ try_except body (fun _ => abort 404) = Raise (HTTPException 404).
Proof.
  destruct body as [a|e]; [left; exists a; split; reflexivity|right].
  reflexivity.
Qed.

Lemma found_or_404_total (fs : filesystem) (o : option response) :
  (forall p body, o = Some (FileResponse p body) -> file_at fs p body) ->
  (exists p body, found_or_404 o = Ret (FileResponse p body)
                  /\ file_at fs p body)
  \/ found_or_404 o = Raise (HTTPException 404).
Proof.
  intros H. destruct o as [[p body]|]; [left|right; reflexivity].
  exists p, body. split; [reflexivity|]. apply H. reflexivity.
Qed.

(** The failures one by one: a refused join ([TypeError] on the [None] it
    returns), a path [os.stat] cannot reach, a file that cannot be opened
    ([OSError]), a directory that cannot be listed ([OSError]). *)
Lemma failures_are_404 (lower : string -> string) (fs : filesystem)
      (root filename : string) :
  (safe_join root filename = None ->
   serve_root_files fs root filename = Raise (HTTPException 404)
   /\ serve_image lower fs root filename = Raise (HTTPException 404))
  /\ (forall p, safe_join root filename = Some p -> stat fs p = None ->
                listdir fs root = None ->
                serve_root_files fs root filename = Raise (HTTPException 404)
                /\ serve_image lower fs root filename
                   = Raise (HTTPException 404))
  /\ (forall p, safe_join root filename = Some p -> read fs p = None ->
                serve_root_files fs root filename = Raise (HTTPException 404)).
Proof.
  rewrite serve_root_files_lookup, serve_image_lookup.
  unfold lookup_file, image_lookup. repeat apply conj.
  - intros H. rewrite H. split; reflexivity.
  - intros p H H0 H1. rewrite H, H0, H1. split; reflexivity.
  - intros p H H0. rewrite H, H0.
    destruct (stat fs p) as [[| |]|]; reflexivity.
Qed.

(** Without the [print] calls, each handler returns the bytes of an
    existing regular file or raises the 404 of [abort]. *)
Lemma pure_handlers_total (lower : string -> string) (fs : filesystem)
      (root filename : string) :
  file_or_404 fs (serve_root_files fs root filename)
  /\ file_or_404 fs (serve_scraped_images lower fs root filename).
Proof.
  split.
  - rewrite serve_root_files_lookup. apply found_or_404_total.
    intros p body H. apply lookup_file_found in H. apply H.
  - unfold serve_scraped_images. rewrite serve_image_lookup.
    apply found_or_404_total.
    intros p body H. apply image_lookup_found in H.
    destruct H as (x & _ & H). exact H.
Qed.

Section Printing.

Variable out : stdout.
Variable fs : filesystem.

Ltac run_handler :=
  unfold Logged.serve_root_files, Logged.serve_scraped_images,
    Logged.try_except, Logged.bind, Logged.print, Logged.lift, Logged.ret,
    send_from_directory, send_file, not_a_file, abort,
    Os.path_exists, Os.path_isfile, Os.path_basename, Os.os_listdir;
  cbn [bind fst snd negb];
  repeat
    (match goal with
     | |- context [out ?h ?l] => destruct (out h l) eqn:?
     | |- context [safe_join ?d ?x] => destruct (safe_join d x) eqn:?
     | |- context [stat fs ?p] => destruct (stat fs p) as [[| |]|] eqn:?
     | |- context [read fs ?p] => destruct (read fs p) eqn:?
     | |- context [listdir fs ?d] => destruct (listdir fs d) eqn:?
     | |- context [find_case_insensitive ?l ?x ?e] =>
         destruct (find_case_insensitive l x e) eqn:?
     end; cbn [bind fst snd negb]).

Ltac outcome :=
  first
    [ left; right; reflexivity
    | left; left; eexists _, _; split; [reflexivity|];
      split; eassumption
    | right; eexists _, _, _; split; [eassumption|reflexivity] ].

(** With its [print] calls, the root handler returns a file, raises 404,
    or raises what one of its [print] calls raised. *)
Lemma logged_root_outcome (root filename : string) (log : list log_line) :
  file_or_404 fs (snd (Logged.serve_root_files out fs root filename log))
  \/ raised_by_print
       out (snd (Logged.serve_root_files out fs root filename log)).
Proof. run_handler; outcome. Qed.

Lemma logged_image_outcome (lower : string -> string)
      (root filename : string) (log : list log_line) :
  file_or_404
    fs (snd (Logged.serve_scraped_images out lower fs root filename log))
  \/ raised_by_print
       out (snd (Logged.serve_scraped_images out lower fs root filename log)).
Proof. run_handler; outcome. Qed.

Hypothesis Hquiet : quiet out.

Ltac run_quietly :=
  unfold Logged.serve_root_files, Logged.serve_scraped_images,
    serve_root_files, serve_scraped_images, serve_image,
    Logged.try_except, Logged.bind, Logged.print, Logged.lift, Logged.ret,
    try_except, send_from_directory, send_file, not_a_file, abort,
    Os.path_exists, Os.path_isfile, Os.path_basename, Os.os_listdir;
  cbn [bind fst snd negb];
  repeat
    (match goal with
     | |- context [out ?h ?l] => rewrite (Hquiet h l)
     | |- context [safe_join ?d ?x] => destruct (safe_join d x) eqn:?
     | |- context [stat fs ?p] => destruct (stat fs p) as [[| |]|] eqn:?
     | |- context [read fs ?p] => destruct (read fs p) eqn:?
     | |- context [listdir fs ?d] => destruct (listdir fs d) eqn:?
     | |- context [find_case_insensitive ?l ?x ?e] =>
         destruct (find_case_insensitive l x e) eqn:?
     end; cbn [bind fst snd negb]);
  try reflexivity.

(** On a standard output that takes every line, the handlers with their
    [print] calls return what the handlers without them return. *)
Lemma quiet_serve_root_files (root filename : string) (log : list log_line) :
  snd (Logged.serve_root_files out fs root filename log)
  = serve_root_files fs root filename.
Proof. run_quietly. Qed.

Lemma quiet_route_root (root requestedPath : string) (log : list log_line) :
  snd (Logged.route_root out fs root requestedPath log)
  = route_root fs root requestedPath.
Proof.
  unfold Logged.route_root, route_root.
  destruct (requestedPath =? ""); apply quiet_serve_root_files.
Qed.

Lemma quiet_serve_scraped_images (lower : string -> string)
      (root filename : string) (log : list log_line) :
  snd (Logged.serve_scraped_images out lower fs root filename log)
  = serve_scraped_images lower fs root filename.
Proof. run_quietly. Qed.

End Printing.

(** C5, amended.  The handlers with their [print] calls, on any standard
    output and after any lines printed.  Each handler returns the bytes of
    an existing regular file, or raises the 404 of [abort], or raises what
    one of its own [print] calls raised; the [print] of line 34 stands
    before the [try], and what it raises leaves the image handler as it
    is.  On a standard output that takes every line the handlers are
    total: each one answers as a lookup of the file does, a refused join
    and a failed [stat], [listdir] or [open] as a missing file, so that
    the status is 200 or 404. *)
Theorem handlers_total (out : stdout) (lower : string -> string)
        (fs : filesystem) (root filename : string) (log : list log_line) :
  let image_dir := PosixPath.join root "images_scraped" in
  (file_or_404 fs (snd (Logged.serve_root_files out fs root filename log))
   \/ raised_by_print
        out (snd (Logged.serve_root_files out fs root filename log)))
  /\ (file_or_404 fs (snd (Logged.route_root out fs root filename log))
      \/ raised_by_print
           out (snd (Logged.route_root out fs root filename log)))
  /\ (file_or_404
        fs (snd (Logged.serve_scraped_images out lower fs root filename log))
      \/ raised_by_print
           out
           (snd (Logged.serve_scraped_images out lower fs root filename log)))
  /\ (forall e,
         out log (Attempting (Urllib.unquote filename) image_dir) = Some e ->
         Logged.serve_scraped_images out lower fs root filename log
         = (log, Raise e))
  /\ (quiet out ->
      snd (Logged.serve_root_files out fs root filename log)
      = found_or_404 (lookup_file fs root filename)
      /\ snd (Logged.route_root out fs root filename log)
         = route_root fs root filename
      /\ snd (Logged.serve_scraped_images out lower fs root filename log)
         = found_or_404
             (image_lookup lower fs image_dir (Urllib.unquote filename))
      /\ (http_status (snd (Logged.route_root out fs root filename log))
          = 200
          \/ http_status (snd (Logged.route_root out fs root filename log))
             = 404)
      /\ (http_status
            (snd (Logged.serve_scraped_images out lower fs root filename log))
          = 200
          \/ http_status
               (snd (Logged.serve_scraped_images
                       out lower fs root filename log))
             = 404)).
Proof.
  intros image_dir. split; [apply logged_root_outcome|].
  split; [unfold Logged.route_root;
          destruct (filename =? ""); apply logged_root_outcome|].
  split; [apply logged_image_outcome|]. split.
  - intros e He. unfold Logged.serve_scraped_images, Logged.bind at 1.
    unfold Logged.print at 1. fold image_dir. rewrite He. reflexivity.
  - intros Hq.
    rewrite (quiet_serve_root_files out fs Hq),
      (quiet_route_root out fs Hq), (quiet_serve_scraped_images out fs Hq).
    split; [apply serve_root_files_lookup|]. split; [reflexivity|].
    split; [apply serve_image_lookup|].
    assert (H : forall r, file_or_404 fs r ->
                          http_status r = 200 \/ http_status r = 404).
    { intros r [(p & body & -> & _)| ->]; [left|right]; reflexivity. }
    split; apply H.
    + unfold route_root. destruct (filename =? "");
        apply (pure_handlers_total lower).
    + apply (pure_handlers_total lower).
Qed.

(** The request for an image [cafe.jpg] (with its accent, see [cafe])
    that does not exist, and the
    request for [index.html] without the rights to open it, on a standard
    output in UTF-8: both are answered 404. *)
Lemma handlers_total_witness :
  snd (Logged.serve_scraped_images
         utf8_stdout Str.ascii_lower site_fs "/srv/app" "caf%C3%A9.jpg" [])
  = Raise (HTTPException 404)
  /\ snd (Logged.route_root
            utf8_stdout
            {| stat := stat site_fs; listdir := listdir site_fs;
               read := fun _ => None |}
            "/srv/app" "" [])
     = Raise (HTTPException 404).
Proof.
  split.
  - rewrite (proj1 (proj2 (proj2 (proj2 (proj2 (proj2 (proj2
               (handlers_total utf8_stdout Str.ascii_lower site_fs
                               "/srv/app" "caf%C3%A9.jpg" []))))
               (fun _ _ => eq_refl))))).
    reflexivity.
  - rewrite (proj1 (proj2 (proj2 (proj2 (proj2 (proj2
               (handlers_total utf8_stdout Str.ascii_lower
                  {| stat := stat site_fs; listdir := listdir site_fs;
                     read := fun _ => None |}
                  "/srv/app" "" []))))
               (fun _ _ => eq_refl)))).
    reflexivity.
Defined.

(** C5 as stated fails, on a standard output encoded in ASCII and for a
    name with an accent (see [cafe]).  The request for the missing image
    [cafe.jpg] raises [UnicodeEncodeError] at line 34, before the [try];
    the request for the missing file [cafe.html] raises it at line 20 and
    again at line 25, in the [except] clause.  Neither is answered 404: the
    exception leaves the handler, and the status is 500. *)
Lemma handlers_total_counterexample :
  Urllib.unquote "caf%C3%A9.jpg" = cafe ".jpg"
  /\ Logged.serve_scraped_images
       ascii_stdout Str.ascii_lower site_fs "/srv/app" "caf%C3%A9.jpg" []
     = ([], Raise UnicodeEncodeError)
  /\ Logged.route_root ascii_stdout site_fs "/srv/app" (cafe ".html") []
     = ([], Raise UnicodeEncodeError)
  /\ http_status (Raise UnicodeEncodeError) = 500
  /\ serve_scraped_images Str.ascii_lower site_fs "/srv/app" "caf%C3%A9.jpg"
     = Raise (HTTPException 404)
  /\ route_root site_fs "/srv/app" (cafe ".html")
     = Raise (HTTPException 404).
Proof. repeat split. Qed.

(** ** C7: the default file name *)

(** C7.  In the root-files variant the empty requested path stands for
    [index.html]: the route ['/'] returns [index.html] of the project root
    when that is an existing regular file, and Not Found otherwise. *)
Theorem empty_path_serves_index (fs : filesystem) (root : string) :
  let index := PosixPath.join (base_dir root) "index.html" in
  route_root fs root "" = serve_root_files fs root "index.html"
  /\ (forall body,
         file_at fs index body ->
         route_root fs root "" = Ret (FileResponse index body))
  /\ ((forall body, ~ file_at fs index body) ->
      route_root fs root "" = Raise (HTTPException 404)).
Proof.
  intros index.
  assert (Hj : safe_join root "index.html" = Some index)
    by (apply safe_join_entry; reflexivity).
  split; [reflexivity|]. unfold route_root. simpl ("" =? "").
  rewrite serve_root_files_lookup. split.
  - intros body H. rewrite (lookup_file_at fs _ _ _ _ Hj H). reflexivity.
  - intros H. unfold lookup_file. rewrite Hj.
    destruct (stat fs index) as [[| |]|] eqn:Hs; try reflexivity.
    destruct (read fs index) as [body|] eqn:Hr; [|reflexivity].
    exfalso. apply (H body). split; assumption.
Qed.

(** [site] has an [index.html], [bare] has none. *)
Lemma empty_path_serves_index_witness :
  route_root site_fs "/srv/app" ""
  = Ret (FileResponse "/srv/app/index.html" "<html>")
  /\ route_root bare_fs "/srv/app" "" = Raise (HTTPException 404).
Proof.
  split.
  - apply (empty_path_serves_index site_fs "/srv/app"). split; reflexivity.
  - apply (empty_path_serves_index bare_fs "/srv/app").
    intros body [H _]. discriminate.
Defined.

(** ** C8: determinism *)

Section Determinism.

Lemma find_is_first_kept {A : Type} (P : A -> bool) (l : list A) :
  find P l = hd_error (filter P l).
Proof.
  induction l as [|x l IH]; simpl; [reflexivity|].
  destruct (P x); [reflexivity|exact IH].
Qed.

Lemma filter_permutation {A : Type} (P : A -> bool) (l l' : list A) :
  Permutation l l' -> Permutation (filter P l) (filter P l').
Proof.
  induction 1 as [|x l l' _ IH|x y l|l l' l'' _ IH1 _ IH2]; simpl.
  - constructor.
  - destruct (P x); [constructor|]; exact IH.
  - destruct (P x), (P y); try apply Permutation_refl.
    apply perm_swap.
  - eapply perm_trans; eassumption.
Qed.

Lemma lookup_file_agree (fs1 fs2 : filesystem) (d name : string) :
  (forall p, stat fs1 p = stat fs2 p) ->
  (forall p, read fs1 p = read fs2 p) ->
  lookup_file fs1 d name = lookup_file fs2 d name.
Proof.
  intros Hs Hr. unfold lookup_file.
  destruct (safe_join d name) as [p|]; [|reflexivity].
  rewrite Hs, Hr. reflexivity.
Qed.

(** With at most one name equal to the requested one up to case, the loop
    finds the same name in every order of the listing. *)
Lemma find_permutation (lower : string -> string) (name : string)
      (l1 l2 : list string) :
  Permutation l1 l2 ->
  List.length (filter (same_up_to_case lower name) l1) <= 1 ->
  find_case_insensitive lower name l1 = find_case_insensitive lower name l2.
Proof.
  intros Hperm Hone. unfold find_case_insensitive.
  change (fun f => lower f =? lower name) with (same_up_to_case lower name).
  rewrite !find_is_first_kept.
  pose proof (filter_permutation (same_up_to_case lower name) _ _ Hperm)
    as Hp.
  destruct (filter (same_up_to_case lower name) l1) as [|a [|b t]].
  - apply Permutation_nil in Hp. rewrite Hp. reflexivity.
  - apply Permutation_length_1_inv in Hp. rewrite Hp. reflexivity.
  - simpl in Hone. lia.
Qed.

(** The answer of [image_lookup] for equal file types and bytes, when the
    loop finds the same name. *)
Lemma image_lookup_agree (lower : string -> string) (fs1 fs2 : filesystem)
      (root name : string) :
  (forall p, stat fs1 p = stat fs2 p) ->
  (forall p, read fs1 p = read fs2 p) ->
  match listdir fs1 root, listdir fs2 root with
  | Some l1, Some l2 =>
      find_case_insensitive lower name l1
      = find_case_insensitive lower name l2
  | None, None => True
  | _, _ => False
  end ->
  image_lookup lower fs1 root name = image_lookup lower fs2 root name.
Proof.
  intros Hs Hr Hl. unfold image_lookup.
  destruct (safe_join root name) as [p|]; [|reflexivity].
  rewrite Hs.
  destruct (listdir fs1 root) as [l1|], (listdir fs2 root) as [l2|];
    try contradiction.
  - rewrite Hl.
    destruct (stat fs2 p) as [[| |]|];
      try (apply lookup_file_agree; assumption);
      destruct (find_case_insensitive lower name l2) as [f|];
      try reflexivity;
      destruct (safe_join root f) as [q|]; try reflexivity;
      apply lookup_file_agree; assumption.
  - destruct (stat fs2 p) as [[| |]|]; try reflexivity.
    apply lookup_file_agree; assumption.
Qed.

(** C8, amended.  The handlers read the file system and change nothing.
    Against two views with the same directory contents (the same file
    types and bytes, the same names in the listings, in whatever order)
    the root-files variant returns identical results on identical inputs.
    So does the image variant when its direct lookup finds a regular file,
    when at most one listed name of the root equals the requested path up
    to case, and when the root is listed in the same order; with two or
    more such names, the first one listed decides. *)
Theorem resolve_deterministic (lower : string -> string)
        (fs1 fs2 : filesystem) (root requestedPath : string) :
  same_contents fs1 fs2 ->
  serve_root_files fs1 root requestedPath
  = serve_root_files fs2 root requestedPath
  /\ route_root fs1 root requestedPath = route_root fs2 root requestedPath
  /\ (direct_hit fs1 root requestedPath = true ->
      serve_image lower fs1 root requestedPath
      = serve_image lower fs2 root requestedPath)
  /\ (forall l1,
         listdir fs1 root = Some l1 ->
         List.length (filter (same_up_to_case lower requestedPath) l1) <= 1 ->
         serve_image lower fs1 root requestedPath
         = serve_image lower fs2 root requestedPath)
  /\ (listdir fs1 root = listdir fs2 root ->
      serve_image lower fs1 root requestedPath
      = serve_image lower fs2 root requestedPath).
Proof.
  intros (Hs & Hr & Hl).
  assert (Hroot : forall x, serve_root_files fs1 root x
                            = serve_root_files fs2 root x).
  { intros x. rewrite !serve_root_files_lookup.
    rewrite (lookup_file_agree fs1 fs2 root x Hs Hr). reflexivity. }
  split; [apply Hroot|]. split; [|split; [|split]].
  - unfold route_root. destruct (requestedPath =? ""); apply Hroot.
  - intros Hhit. rewrite !serve_image_lookup. f_equal.
    unfold image_lookup, direct_hit in *.
    destruct (safe_join root requestedPath) as [p|]; [|discriminate].
    rewrite <- Hs.
    destruct (stat fs1 p) as [[| |]|]; try discriminate.
    apply lookup_file_agree; assumption.
  - intros l1 H1 Hone. rewrite !serve_image_lookup. f_equal.
    apply image_lookup_agree; try assumption.
    specialize (Hl root). rewrite H1 in *.
    destruct (listdir fs2 root) as [l2|]; [|contradiction].
    apply find_permutation; assumption.
  - intros Hsame. rewrite !serve_image_lookup. f_equal.
    apply image_lookup_agree; try assumption.
    rewrite Hsame. destruct (listdir fs2 root); [reflexivity|exact I].
Qed.

Lemma with_listing_same_contents (fs : filesystem) (d : string)
      (l l' : list string) :
  listdir fs d = Some l -> Permutation l l' ->
  same_contents fs (with_listing fs d l').
Proof.
  intros Hl Hperm. unfold same_contents, with_listing. cbn [stat listdir read].
  split; [reflexivity|]. split; [reflexivity|].
  intros d'. destruct (String.eqb_spec d' d) as [->|_].
  - rewrite Hl. exact Hperm.
  - destruct (listdir fs d'); [apply Permutation_refl|exact I].
Qed.

End Determinism.

(** The image directory of [site], listed backwards: [photo.jpg] still
    finds [Photo.JPG], the one name equal to it up to case. *)
Lemma resolve_deterministic_witness :
  serve_image Str.ascii_lower site_fs "/srv/app/images_scraped" "photo.jpg"
  = serve_image Str.ascii_lower
      (with_listing site_fs "/srv/app/images_scraped"
                    ["z.png"; "a%20b.jpg"; "gallery"; "Thumbs"; "thumbs";
                     "Archive"; "Photo.JPG"])
      "/srv/app/images_scraped" "photo.jpg".
Proof.
  refine (proj1 (proj2 (proj2 (proj2 (resolve_deterministic
            Str.ascii_lower site_fs
            (with_listing site_fs "/srv/app/images_scraped"
                          ["z.png"; "a%20b.jpg"; "gallery"; "Thumbs";
                           "thumbs"; "Archive"; "Photo.JPG"])
            "/srv/app/images_scraped" "photo.jpg" _))))
            ["Photo.JPG"; "Archive"; "thumbs"; "Thumbs"; "gallery";
             "a%20b.jpg"; "z.png"] _ _).
  - apply (with_listing_same_contents
             site_fs "/srv/app/images_scraped"
             ["Photo.JPG"; "Archive"; "thumbs"; "Thumbs"; "gallery";
              "a%20b.jpg"; "z.png"]).
    + reflexivity.
    + apply Permutation_rev.
  - reflexivity.
  - simpl. lia.
Defined.

(** C8 as stated fails for the image variant: the same directory contents
    listed in two orders.  The image directory of [site] holds the file
    [thumbs] and the directory [Thumbs]; the request [THUMBS] finds the
    file when it is listed first, and the directory, hence nothing, when
    that is. *)
Lemma resolve_deterministic_counterexample :
  same_contents
    site_fs
    (with_listing site_fs "/srv/app/images_scraped"
                  ["Photo.JPG"; "Archive"; "Thumbs"; "thumbs"; "gallery";
                   "a%20b.jpg"; "z.png"])
  /\ serve_image Str.ascii_lower site_fs "/srv/app/images_scraped" "THUMBS"
     = Ret (FileResponse "/srv/app/images_scraped/thumbs" "t")
  /\ serve_image Str.ascii_lower
       (with_listing site_fs "/srv/app/images_scraped"
                     ["Photo.JPG"; "Archive"; "Thumbs"; "thumbs"; "gallery";
                      "a%20b.jpg"; "z.png"])
       "/srv/app/images_scraped" "THUMBS"
     = Raise (HTTPException 404).
Proof.
  split; [|split; reflexivity].
  apply (with_listing_same_contents
           site_fs "/srv/app/images_scraped"
           ["Photo.JPG"; "Archive"; "thumbs"; "Thumbs"; "gallery";
            "a%20b.jpg"; "z.png"]).
  - reflexivity.
  - apply perm_skip, perm_skip, perm_swap.
Qed.

(** ** Lower case and entry names *)

Section AsciiLower.

Lemma lower_char_sep (c : ascii) :
  Ascii.eqb (Str.ascii_lower_char c) Str.sep = Ascii.eqb c Str.sep.
Proof. destruct c as [[] [] [] [] [] [] [] []]; reflexivity. Qed.

Lemma lower_char_dot (c : ascii) :
  Ascii.eqb (Str.ascii_lower_char c) "." = Ascii.eqb c ".".
Proof. destruct c as [[] [] [] [] [] [] [] []]; reflexivity. Qed.

Lemma contains_sep_lower (s : string) :
  Str.contains Str.sep (Str.ascii_lower s) = Str.contains Str.sep s.
Proof.
  induction s as [|c r IH]; simpl; [reflexivity|].
  rewrite lower_char_sep, IH. reflexivity.
Qed.

Lemma lower_empty (s : string) : Str.ascii_lower s = "" -> s = "".
Proof. destruct s; simpl; [reflexivity|discriminate]. Qed.

Lemma lower_dot (s : string) : Str.ascii_lower s = "." -> s = ".".
Proof.
  destruct s as [|c r]; simpl; [discriminate|].
  intros H. injection H as Hc Hr. apply lower_empty in Hr. subst r.
  assert (E : Ascii.eqb (Str.ascii_lower_char c) "." = true)
    by (rewrite Hc; reflexivity).
  rewrite lower_char_dot in E. apply Ascii.eqb_eq in E. subst. reflexivity.
Qed.

Lemma lower_dotdot (s : string) : Str.ascii_lower s = ".." -> s = "..".
Proof.
  destruct s as [|c r]; simpl; [discriminate|].
  intros H. injection H as Hc Hr. apply lower_dot in Hr. subst r.
  assert (E : Ascii.eqb (Str.ascii_lower_char c) "." = true)
    by (rewrite Hc; reflexivity).
  rewrite lower_char_dot in E. apply Ascii.eqb_eq in E. subst. reflexivity.
Qed.

Lemma lower_entry_name (a b : string) :
  Str.ascii_lower a = Str.ascii_lower b ->
  entry_name a = true -> entry_name b = true.
Proof.
  intros E Ha. destruct (entry_name_inv a Ha) as (H1 & H2 & H3 & H4).
  unfold entry_name.
  rewrite <- (contains_sep_lower b), <- E, contains_sep_lower, H2.
  assert (N1 : (b =? "") = false).
  { apply String.eqb_neq. intros ->. apply H1, lower_empty. exact E. }
  assert (N2 : (b =? ".") = false).
  { apply String.eqb_neq. intros ->. apply H3, lower_dot. exact E. }
  assert (N3 : (b =? "..") = false).
  { apply String.eqb_neq. intros ->. apply H4, lower_dotdot. exact E. }
  rewrite N1, N2, N3. reflexivity.
Qed.

(** The ASCII lower case has the property the proofs use of
    [str.lower]. *)
Lemma ascii_lower_keeps_entry_names : case_keeps_entry_names Str.ascii_lower.
Proof.
  intros a b E.
  destruct (entry_name a) eqn:Ha; destruct (entry_name b) eqn:Hb;
    try reflexivity.
  - rewrite (lower_entry_name a b E Ha) in Hb. discriminate.
  - rewrite (lower_entry_name b a (eq_sym E) Hb) in Ha. discriminate.
Qed.

End AsciiLower.

Section CaseInsensitive.

Lemma not_entry_name_with_sep (s : string) :
  Str.contains Str.sep s = true -> entry_name s = false.
Proof.
  intros H. unfold entry_name. rewrite H.
  destruct (s =? ""); reflexivity.
Qed.

(** No entry name equals, up to case, a path with a separator. *)
Lemma find_nested_none (lower : string -> string) (requestedPath : string)
      (entries : list string) :
  case_keeps_entry_names lower ->
  Str.contains Str.sep requestedPath = true ->
  forallb entry_name entries = true ->
  find_case_insensitive lower requestedPath entries = None.
Proof.
  intros Hcase Hsep Hall. unfold find_case_insensitive.
  induction entries as [|f l IH]; simpl; [reflexivity|].
  simpl in Hall. apply andb_true_iff in Hall. destruct Hall as [Hf Hl].
  destruct (lower f =? lower requestedPath) eqn:E.
  - apply String.eqb_eq in E. apply Hcase in E.
    rewrite Hf, (not_entry_name_with_sep _ Hsep) in E. discriminate.
  - apply IH. exact Hl.
Qed.

Lemma find_single {A : Type} (P : A -> bool) (l : list A) (x : A) :
  filter P l = [x] -> find P l = Some x.
Proof.
  induction l as [|y l IH]; simpl; [discriminate|].
  destruct (P y); [|exact IH]. intros H. injection H as -> _. reflexivity.
Qed.

Lemma find_case_insensitive_some (lower : string -> string) (name : string)
      (entries : list string) (f : string) :
  find_case_insensitive lower name entries = Some f ->
  In f entries /\ lower f = lower name.
Proof.
  unfold find_case_insensitive. intros H. apply find_some in H.
  destruct H as [Hin H]. apply String.eqb_eq in H. auto.
Qed.

End CaseInsensitive.

(** ** C9: the fallback compares one segment *)

(** C9.  The fallback matches a single path segment only: a requested path
    with a separator equals, up to case, no name of the listing of the
    root, so that when its direct lookup fails the image variant returns
    Not Found. *)
Theorem fallback_single_segment (lower : string -> string)
        (fs : filesystem) (root requestedPath : string) :
  case_keeps_entry_names lower ->
  listings_ok fs ->
  Str.contains Str.sep requestedPath = true ->
  direct_hit fs root requestedPath = false ->
  (forall entries,
      listdir fs root = Some entries ->
      find_case_insensitive lower requestedPath entries = None)
  /\ serve_image lower fs root requestedPath = Raise (HTTPException 404).
Proof.
  intros Hcase Hok Hsep Hmiss.
  assert (Hnone : forall entries,
             listdir fs root = Some entries ->
             find_case_insensitive lower requestedPath entries = None).
  { intros entries Hl. apply find_nested_none; [exact Hcase|exact Hsep|].
    exact (Hok root entries Hl). }
  split; [exact Hnone|].
  rewrite serve_image_lookup. unfold image_lookup.
  unfold direct_hit in Hmiss.
  destruct (safe_join root requestedPath) as [p|]; [|reflexivity].
  destruct (listdir fs root) as [entries|] eqn:Hl.
  - rewrite (Hnone entries eq_refl).
    destruct (stat fs p) as [[| |]|]; try reflexivity. discriminate.
  - destruct (stat fs p) as [[| |]|]; try reflexivity. discriminate.
Qed.

(** [gallery/B.JPG] is no file of the image directory of [site]; that
    [gallery] holds a [b.jpg] does not help. *)
Lemma fallback_single_segment_witness :
  direct_hit site_fs "/srv/app/images_scraped" "gallery/B.JPG" = false
  /\ serve_image Str.ascii_lower site_fs "/srv/app/images_scraped"
                 "gallery/B.JPG"
     = Raise (HTTPException 404).
Proof.
  split; [reflexivity|].
  apply (fallback_single_segment
           Str.ascii_lower site_fs "/srv/app/images_scraped" "gallery/B.JPG").
  - exact ascii_lower_keeps_entry_names.
  - apply table_listings_ok. reflexivity.
  - reflexivity.
  - reflexivity.
Defined.

(** ** C3: the case-insensitive fallback *)

Lemma lookup_file_none (fs : filesystem) (d name p : string) :
  safe_join d name = Some p -> (forall body, ~ file_at fs p body) ->
  lookup_file fs d name = None.
Proof.
  unfold lookup_file, file_at. intros -> H.
  destruct (stat fs p) as [[| |]|] eqn:Hs; try reflexivity.
  destruct (read fs p) as [body|] eqn:Hr; [|reflexivity].
  exfalso. apply (H body). split; reflexivity.
Qed.

(** After a failed direct lookup, [image_lookup] is the lookup of the first
    listed name equal to the requested one up to case. *)
Lemma image_lookup_fallback (lower : string -> string) (fs : filesystem)
      (root requestedPath : string) (entries : list string) (f : string) :
  case_keeps_entry_names lower ->
  listings_ok fs ->
  direct_hit fs root requestedPath = false ->
  listdir fs root = Some entries ->
  find_case_insensitive lower requestedPath entries = Some f ->
  safe_join root f = Some (PosixPath.join (base_dir root) f)
  /\ image_lookup lower fs root requestedPath = lookup_file fs root f.
Proof.
  intros Hcase Hok Hmiss Hl Hfind.
  destruct (find_case_insensitive_some _ _ _ _ Hfind) as [Hin Hlow].
  assert (Hf : entry_name f = true).
  { pose proof (Hok root entries Hl) as Hall.
    rewrite forallb_forall in Hall. apply Hall. exact Hin. }
  assert (Hr : entry_name requestedPath = true)
    by (rewrite <- (Hcase _ _ Hlow); exact Hf).
  pose proof (safe_join_entry root f Hf) as Hjf.
  split; [exact Hjf|].
  unfold image_lookup. unfold direct_hit in Hmiss.
  rewrite (safe_join_entry root requestedPath Hr) in *.
  rewrite Hl, Hfind, Hjf.
  rewrite (basename_join (base_dir root) f)
    by (apply entry_name_inv; exact Hf).
  destruct (stat fs _) as [[| |]|]; try reflexivity. discriminate.
Qed.

(** Without a match, or without a listing, the fallback finds nothing. *)
Lemma image_lookup_no_match (lower : string -> string) (fs : filesystem)
      (root requestedPath : string) :
  direct_hit fs root requestedPath = false ->
  (listdir fs root = None
   \/ exists entries,
       listdir fs root = Some entries
       /\ find_case_insensitive lower requestedPath entries = None) ->
  image_lookup lower fs root requestedPath = None.
Proof.
  intros Hmiss H. unfold image_lookup, direct_hit in *.
  destruct (safe_join root requestedPath) as [p|]; [|reflexivity].
  destruct H as [Hl|(entries & Hl & Hf)].
  - rewrite Hl. destruct (stat fs p) as [[| |]|]; try reflexivity.
    discriminate.
  - rewrite Hl, Hf. destruct (stat fs p) as [[| |]|]; try reflexivity.
    discriminate.
Qed.

(** C3, amended.  In the image variant, when the direct lookup fails and
    exactly one name of the listing of the root equals the requested path
    up to case, the response is that entry, joined safely with the root,
    provided the entry is an existing regular file; an entry that is not
    one (a directory, say) gives Not Found. *)
Theorem fallback_serves_single_match (lower : string -> string)
        (fs : filesystem) (root requestedPath : string)
        (entries : list string) (f : string) :
  case_keeps_entry_names lower ->
  listings_ok fs ->
  direct_hit fs root requestedPath = false ->
  listdir fs root = Some entries ->
  filter (fun e => lower e =? lower requestedPath) entries = [f] ->
  let q := PosixPath.join (base_dir root) f in
  safe_join root f = Some q
  /\ (forall body,
         file_at fs q body ->
         serve_image lower fs root requestedPath
         = Ret (FileResponse q body))
  /\ ((forall body, ~ file_at fs q body) ->
      serve_image lower fs root requestedPath = Raise (HTTPException 404)).
Proof.
  intros Hcase Hok Hmiss Hl Hone q.
  assert (Hfind : find_case_insensitive lower requestedPath entries = Some f)
    by (apply find_single; exact Hone).
  destruct (image_lookup_fallback lower fs root requestedPath entries f
                                  Hcase Hok Hmiss Hl Hfind) as [Hj Himg].
  split; [exact Hj|].
  rewrite serve_image_lookup, Himg. split.
  - intros body Hfile. rewrite (lookup_file_at fs _ _ _ _ Hj Hfile).
    reflexivity.
  - intros Hno. rewrite (lookup_file_none fs _ _ _ Hj Hno). reflexivity.
Qed.

(** The example of the specification: the image directory of [site] holds
    [Photo.JPG], and [photo.jpg] is requested.  (All names of [site] are
    ASCII, where [str.lower] is [Str.ascii_lower].) *)
Lemma fallback_serves_single_match_witness :
  serve_scraped_images Str.ascii_lower site_fs "/srv/app" "photo.jpg"
  = Ret (FileResponse "/srv/app/images_scraped/Photo.JPG" "jpeg").
Proof.
  apply (fallback_serves_single_match
           Str.ascii_lower site_fs "/srv/app/images_scraped" "photo.jpg"
           ["Photo.JPG"; "Archive"; "thumbs"; "Thumbs"; "gallery";
            "a%20b.jpg"; "z.png"]
           "Photo.JPG").
  - exact ascii_lower_keeps_entry_names.
  - apply table_listings_ok. reflexivity.
  - reflexivity.
  - reflexivity.
  - reflexivity.
  - split; reflexivity.
Defined.

(** C3 as stated fails when the single matching entry is a directory: the
    image directory of [site] lists [Archive], a directory, and nothing
    else that equals [archive] up to case; the direct lookup of [archive]
    fails; the response is Not Found, not the path of [Archive]. *)
Lemma fallback_directory_counterexample :
  direct_hit site_fs "/srv/app/images_scraped" "archive" = false
  /\ (exists entries,
         listdir site_fs "/srv/app/images_scraped" = Some entries
         /\ filter (fun e => Str.ascii_lower e =? Str.ascii_lower "archive")
                   entries
            = ["Archive"])
  /\ safe_join "/srv/app/images_scraped" "Archive"
     = Some "/srv/app/images_scraped/Archive"
  /\ stat site_fs "/srv/app/images_scraped/Archive" = Some Directory
  /\ serve_image Str.ascii_lower site_fs "/srv/app/images_scraped" "archive"
     = Raise (HTTPException 404)
  /\ serve_scraped_images Str.ascii_lower site_fs "/srv/app" "archive"
     = Raise (HTTPException 404).
Proof.
  split; [reflexivity|]. split.
  - eexists. split; reflexivity.
  - repeat split.
Qed.

(** ** C4: a request for a directory *)

(** C4, amended.  When the requested path joins safely to an existing
    directory, the root-files variant returns Not Found.  The image variant
    goes on to its fallback: when the first name of the listing of the root
    that equals the requested path up to case is an existing regular file,
    that file is the response; when that name is no regular file, when no
    listed name equals the requested path up to case, and when the root
    cannot be listed, the response is Not Found.  No response is a
    listing: a response is the bytes of a regular file. *)
Theorem directory_request (lower : string -> string)
        (fs : filesystem) (root requestedPath p : string) :
  case_keeps_entry_names lower ->
  listings_ok fs ->
  safe_join root requestedPath = Some p ->
  stat fs p = Some Directory ->
  serve_root_files fs root requestedPath = Raise (HTTPException 404)
  /\ (forall entries f body,
         listdir fs root = Some entries ->
         find_case_insensitive lower requestedPath entries = Some f ->
         file_at fs (PosixPath.join (base_dir root) f) body ->
         serve_image lower fs root requestedPath
         = Ret (FileResponse (PosixPath.join (base_dir root) f) body))
  /\ (forall entries f,
         listdir fs root = Some entries ->
         find_case_insensitive lower requestedPath entries = Some f ->
         (forall body, ~ file_at fs (PosixPath.join (base_dir root) f) body) ->
         serve_image lower fs root requestedPath = Raise (HTTPException 404))
  /\ (forall entries,
         listdir fs root = Some entries ->
         find_case_insensitive lower requestedPath entries = None ->
         serve_image lower fs root requestedPath = Raise (HTTPException 404))
  /\ (listdir fs root = None ->
      serve_image lower fs root requestedPath = Raise (HTTPException 404)).
Proof.
  intros Hcase Hok Hj Hdir.
  assert (Hmiss : direct_hit fs root requestedPath = false)
    by (unfold direct_hit; rewrite Hj, Hdir; reflexivity).
  split; [|split; [|split; [|split]]].
  - rewrite serve_root_files_lookup. unfold lookup_file.
    rewrite Hj, Hdir. reflexivity.
  - intros entries f body Hl Hf Hfile.
    destruct (image_lookup_fallback lower fs root requestedPath entries f
                                    Hcase Hok Hmiss Hl Hf) as [Hjf Himg].
    rewrite serve_image_lookup, Himg, (lookup_file_at fs _ _ _ _ Hjf Hfile).
    reflexivity.
  - intros entries f Hl Hf Hno.
    destruct (image_lookup_fallback lower fs root requestedPath entries f
                                    Hcase Hok Hmiss Hl Hf) as [Hjf Himg].
    rewrite serve_image_lookup, Himg, (lookup_file_none fs _ _ _ Hjf Hno).
    reflexivity.
  - intros entries Hl Hf. rewrite serve_image_lookup.
    rewrite (image_lookup_no_match lower fs root requestedPath Hmiss);
      [reflexivity|]. right. exists entries. auto.
  - intros Hl. rewrite serve_image_lookup.
    rewrite (image_lookup_no_match lower fs root requestedPath Hmiss);
      [reflexivity|]. left. exact Hl.
Qed.

(** [assets] is a directory of the project root of [site], and [gallery]
    one of its image directory, where the only name equal to it up to case
    is itself: both requests are answered 404.  [Thumbs] is a directory
    too, but the file [thumbs] is listed before it, and is the response. *)
Lemma directory_request_witness :
  serve_root_files site_fs "/srv/app" "assets" = Raise (HTTPException 404)
  /\ serve_image Str.ascii_lower site_fs "/srv/app/images_scraped" "gallery"
     = Raise (HTTPException 404)
  /\ serve_image Str.ascii_lower site_fs "/srv/app/images_scraped" "Thumbs"
     = Ret (FileResponse "/srv/app/images_scraped/thumbs" "t").
Proof.
  split; [|split].
  - refine (proj1 (directory_request
             Str.ascii_lower site_fs "/srv/app" "assets" "/srv/app/assets"
             ascii_lower_keeps_entry_names _ _ _)).
    + apply table_listings_ok. reflexivity.
    + reflexivity.
    + reflexivity.
  - refine (proj1 (proj2 (proj2 (directory_request
             Str.ascii_lower site_fs "/srv/app/images_scraped" "gallery"
             "/srv/app/images_scraped/gallery"
             ascii_lower_keeps_entry_names _ _ _))) _ "gallery" _ _ _).
    + apply table_listings_ok. reflexivity.
    + reflexivity.
    + reflexivity.
    + reflexivity.
    + reflexivity.
    + intros body [H _]. discriminate.
  - refine (proj1 (proj2 (directory_request
             Str.ascii_lower site_fs "/srv/app/images_scraped" "Thumbs"
             "/srv/app/images_scraped/Thumbs"
             ascii_lower_keeps_entry_names _ _ _)) _ "thumbs" "t" _ _ _).
    + apply table_listings_ok. reflexivity.
    + reflexivity.
    + reflexivity.
    + reflexivity.
    + reflexivity.
    + split; reflexivity.
Defined.

(** C4 as stated fails in the image variant on a case-sensitive file
    system: the image directory of [site] holds the directory [Thumbs] and
    the regular file [thumbs], listed first.  The request for [Thumbs]
    joins safely to the directory, and the response is the file. *)
Lemma directory_request_counterexample :
  safe_join "/srv/app/images_scraped" "Thumbs"
  = Some "/srv/app/images_scraped/Thumbs"
  /\ stat site_fs "/srv/app/images_scraped/Thumbs" = Some Directory
  /\ serve_image Str.ascii_lower site_fs "/srv/app/images_scraped" "Thumbs"
     = Ret (FileResponse "/srv/app/images_scraped/thumbs" "t")
  /\ serve_scraped_images Str.ascii_lower site_fs "/srv/app" "Thumbs"
     = Ret (FileResponse "/srv/app/images_scraped/thumbs" "t").
Proof. repeat split. Qed.

(** ** C6: existing regular files are served *)

Lemma image_dir_base (root : string) :
  base_dir (PosixPath.join root "images_scraped")
  = PosixPath.join root "images_scraped".
Proof.
  unfold base_dir, PosixPath.join. simpl (Str.startswith _ _). cbv iota.
  destruct ((root =? "") || Str.endswith_sep root);
    destruct root; reflexivity.
Qed.



(** The image variant serves every existing regular file that lies in the
    image directory itself, requested by its name; so does the handler when
    the name holds no percent sign. *)
Lemma image_serves_top_level_file (lower : string -> string)
      (fs : filesystem) (root f body : string) :
  entry_name f = true ->
  file_at fs (PosixPath.join (base_dir root) f) body ->
  serve_image lower fs root f
  = Ret (FileResponse (PosixPath.join (base_dir root) f) body).
Proof.
  intros Hf Hfile. rewrite serve_image_lookup. unfold image_lookup.
  pose proof (safe_join_entry root f Hf) as Hj. rewrite Hj.
  destruct Hfile as [Hs Hr]. rewrite Hs.
  rewrite basename_join by (apply entry_name_inv; exact Hf).
  rewrite (lookup_file_at fs _ _ _ _ Hj (conj Hs Hr)). reflexivity.
Qed.

Lemma image_serves_top_level_file_witness :
  serve_image Str.ascii_lower site_fs "/srv/app/images_scraped" "z.png"
  = Ret (FileResponse "/srv/app/images_scraped/z.png" "png").
Proof.
  apply (image_serves_top_level_file
           Str.ascii_lower site_fs "/srv/app/images_scraped" "z.png" "png").
  - reflexivity.
  - split; reflexivity.
Defined.

(** C6 fails in the image variant for a file below a subdirectory.  The
    direct lookup of [gallery/b.jpg] finds the regular file, but the handler
    then sends the base name [b.jpg] from the image directory, where no
    such file is: the answer is 404.  For [gallery/z.png] the base name
    names another file, and that one is served. *)
Lemma nested_image_not_served :
  file_at site_fs "/srv/app/images_scraped/gallery/b.jpg" "nested"
  /\ direct_hit site_fs "/srv/app/images_scraped" "gallery/b.jpg" = true
  /\ serve_scraped_images Str.ascii_lower site_fs "/srv/app" "gallery/b.jpg"
     = Raise (HTTPException 404)
  /\ file_at site_fs "/srv/app/images_scraped/gallery/z.png" "nested z"
  /\ serve_scraped_images Str.ascii_lower site_fs "/srv/app" "gallery/z.png"
     = Ret (FileResponse "/srv/app/images_scraped/z.png" "png").
Proof. repeat split. Qed.

(** ** Percent-decoding shortens *)

Section Unquote.

Lemma ascii_count_app (a b : string) :
  ascii_count (a ++ b) = ascii_count a + ascii_count b.
Proof.
  induction a as [|c a IH]; simpl; [reflexivity|]. rewrite IH. lia.
Qed.

Lemma ascii_count_le (s : string) : ascii_count s <= String.length s.
Proof.
  induction s as [|c s IH]; simpl; [lia|].
  destruct (Urllib.is_ascii c); lia.
Qed.

Lemma ascii_only_count (s : string) :
  ascii_only s = true -> ascii_count s = String.length s.
Proof.
  induction s as [|c s IH]; simpl; [reflexivity|].
  intros H. apply andb_true_iff in H. destruct H as [-> H].
  rewrite (IH H). reflexivity.
Qed.

Lemma ascii_only_app (a b : string) :
  ascii_only (a ++ b) = ascii_only a && ascii_only b.
Proof.
  induction a as [|c a IH]; simpl; [reflexivity|].
  rewrite IH. apply andb_assoc.
Qed.

(** Each decoded escape takes two bytes away. *)
Lemma unquote_to_bytes_length (n : nat) :
  forall s,
    String.length s <= n ->
    String.length (Urllib.unquote_to_bytes s) + 2 * escape_count s
    = String.length s.
Proof.
  induction n as [|n IH]; intros s Hn.
  - destruct s; [reflexivity|simpl in Hn; lia].
  - destruct s as [|c r]; [reflexivity|].
    assert (Hr : String.length r <= n) by (simpl in Hn; lia).
    pose proof (IH r Hr) as IHr.
    cbn [Urllib.unquote_to_bytes escape_count].
    destruct (Ascii.eqb c "%"); [|cbn [String.length]; lia].
    destruct r as [|a [|b rest]]; try (cbn [String.length] in *; lia).
    destruct (Urllib.hexdig a); [|cbn [String.length] in *; lia].
    destruct (Urllib.hexdig b); [|cbn [String.length] in *; lia].
    assert (Hrest : String.length rest <= n)
      by (cbn [String.length] in Hr; lia).
    pose proof (IH rest Hrest). cbn [String.length]. lia.
Qed.

Lemma replacement_count : ascii_count Urllib.replacement = 0.
Proof. reflexivity. Qed.

(** Decoding adds no ASCII byte: it keeps bytes or puts U+FFFD. *)
Lemma decode_replace_count (n : nat) :
  forall t,
    String.length t <= n ->
    ascii_count (Urllib.decode_replace t) <= ascii_count t.
Proof.
  induction n as [|n IH]; intros t Hn.
  - destruct t; [simpl; lia|simpl in Hn; lia].
  - destruct t as [|b r]; [simpl; lia|].
    assert (Hr : String.length r <= n) by (simpl in Hn; lia).
    cbn [Urllib.decode_replace]. cbv zeta.
    repeat match goal with
           | |- context [if ?c then _ else _] => destruct c
           | |- context [match ?x with EmptyString => _ | String _ _ => _ end] =>
               is_var x; destruct x
           end;
      repeat rewrite ascii_count_app;
      try rewrite replacement_count;
      cbn [ascii_count String.length] in *;
      repeat match goal with
             | |- context [ascii_count (Urllib.decode_replace ?x)] =>
                 lazymatch goal with
                 | _ : ascii_count (Urllib.decode_replace x) <= _ |- _ => fail
                 | _ => idtac
                 end;
                 let H := fresh in
                 assert (H : ascii_count (Urllib.decode_replace x)
                             <= ascii_count x)
                   by (apply IH; cbn [String.length]; lia)
             end;
      cbn [ascii_count] in *; lia.
Qed.

Lemma unquote_run_count (run : string) :
  ascii_only run = true ->
  ascii_count (Urllib.unquote_run run) + 2 * escape_count run
  <= ascii_count run.
Proof.
  intros H. unfold Urllib.unquote_run.
  pose proof (decode_replace_count _ (Urllib.unquote_to_bytes run)
                                   (le_n _)).
  pose proof (ascii_count_le (Urllib.unquote_to_bytes run)).
  pose proof (unquote_to_bytes_length _ run (le_n _)).
  rewrite (ascii_only_count run H). lia.
Qed.

(** No escape reaches across a byte beyond ASCII. *)
Lemma escape_count_app (n : nat) (c : ascii) (r : string) :
  Urllib.is_ascii c = false ->
  forall a,
    String.length a <= n ->
    escape_count (a ++ String c r) = escape_count a + escape_count r.
Proof.
  intros Hc.
  assert (Hp : Ascii.eqb c "%" = false).
  { destruct (Ascii.eqb c "%") eqn:E; [|reflexivity].
    apply Ascii.eqb_eq in E. subst. discriminate. }
  assert (Hh : Urllib.hexdig c = None).
  { destruct c as [[] [] [] [] [] [] [] []]; try reflexivity; discriminate. }
  induction n as [|n IH]; intros a Hn.
  - destruct a; [|simpl in Hn; lia].
    cbn [append escape_count]. rewrite Hp. reflexivity.
  - destruct a as [|x a'].
    + cbn [append escape_count]. rewrite Hp. reflexivity.
    + assert (Ha' : String.length a' <= n) by (simpl in Hn; lia).
      pose proof (IH a' Ha') as IHa.
      cbn [append escape_count].
      destruct (Ascii.eqb x "%"); [|exact IHa].
      destruct a' as [|y [|z a'']].
      * cbn [append]. rewrite Hh.
        destruct (Urllib.hexdig c); destruct r; exact IHa.
      * cbn [append]. rewrite Hh.
        destruct (Urllib.hexdig y); exact IHa.
      * cbn [append].
        destruct (Urllib.hexdig y); [|exact IHa].
        destruct (Urllib.hexdig z); [|exact IHa].
        rewrite (IH a''); [reflexivity|].
        cbn [String.length] in Ha'. lia.
Qed.

Lemma unquote_pieces_count (s : string) :
  forall run,
    ascii_only run = true ->
    ascii_count (Urllib.unquote_pieces s run) + 2 * escape_count (run ++ s)
    <= ascii_count (run ++ s).
Proof.
  induction s as [|c r IH]; intros run Hrun.
  - cbn [Urllib.unquote_pieces]. rewrite append_nil_r.
    apply unquote_run_count. exact Hrun.
  - cbn [Urllib.unquote_pieces].
    destruct (Urllib.is_ascii c) eqn:Hc.
    + assert (H : ascii_only (run ++ String c "") = true)
        by (rewrite ascii_only_app; simpl; rewrite Hrun, Hc; reflexivity).
      pose proof (IH _ H) as IH'.
      rewrite append_assoc in IH'. exact IH'.
    + rewrite (escape_count_app _ c r Hc run (le_n _)).
      rewrite !ascii_count_app. cbn [ascii_count]. rewrite Hc.
      pose proof (unquote_run_count run Hrun).
      pose proof (IH "" eq_refl) as IH'. cbn [append] in IH'. lia.
Qed.

Lemma escape_count_none (s : string) :
  Str.contains "%" s = false -> escape_count s = 0.
Proof.
  induction s as [|c r IH]; [reflexivity|].
  cbn [Str.contains escape_count]. intros H.
  apply orb_false_iff in H. destruct H as [-> H]. auto.
Qed.

(** [unquote] loses two ASCII bytes for each escape it decodes. *)
Lemma unquote_count (s : string) :
  ascii_count (Urllib.unquote s) + 2 * escape_count s <= ascii_count s.
Proof.
  unfold Urllib.unquote. destruct (Str.contains "%" s) eqn:H.
  - exact (unquote_pieces_count s "" eq_refl).
  - rewrite (escape_count_none s H). lia.
Qed.

Lemma has_escape_count (s : string) :
  has_escape s = true -> 0 < escape_count s.
Proof.
  induction s as [|c r IH]; [discriminate|].
  cbn [has_escape escape_count].
  destruct (Ascii.eqb c "%"); [|exact IH].
  destruct r as [|a [|b rest]]; try exact IH.
  destruct (Urllib.hexdig a); [|exact IH].
  destruct (Urllib.hexdig b); [|exact IH].
  intros _. lia.
Qed.

(** A name with an escape is not what it decodes to. *)
Lemma unquote_shorter (s : string) :
  has_escape s = true -> ascii_count (Urllib.unquote s) < ascii_count s.
Proof.
  intros H. pose proof (has_escape_count s H). pose proof (unquote_count s).
  lia.
Qed.

End Unquote.

(** ** Normalisation does not lengthen *)

Section NormpathCount.

Lemma weight_app (l l' : list string) :
  weight (l ++ l') = weight l + weight l'.
Proof. induction l as [|x l IH]; simpl; [reflexivity|]. rewrite IH. lia. Qed.

Lemma weight_rev (l : list string) : weight (rev l) = weight l.
Proof.
  induction l as [|x l IH]; simpl; [reflexivity|].
  rewrite weight_app, IH. simpl. lia.
Qed.

Lemma sep_is_ascii : Urllib.is_ascii Str.sep = true.
Proof. reflexivity. Qed.

Lemma weight_split (s : string) : weight (Str.split s) = ascii_count s + 1.
Proof.
  induction s as [|c r IH]; [reflexivity|].
  destruct (Ascii.eqb c Str.sep) eqn:Hc.
  - cbn [Str.split]. rewrite Hc. cbn [weight ascii_count]. rewrite IH.
    apply Ascii.eqb_eq in Hc. subst c. rewrite sep_is_ascii. simpl. lia.
  - destruct (split_cons_other c r Hc) as (h & t & Hr & ->).
    rewrite Hr in IH. cbn [weight ascii_count] in *. lia.
Qed.

Lemma weight_join (l : list string) :
  l <> [] -> ascii_count (Str.join l) + 1 = weight l.
Proof.
  induction l as [|x l IH]; [congruence|]. intros _.
  rewrite join_cons. destruct l as [|y l'].
  - simpl. lia.
  - rewrite ascii_count_app. cbn [ascii_count weight] in *.
    rewrite sep_is_ascii.
    assert (H : y :: l' <> []) by discriminate.
    specialize (IH H). lia.
Qed.

Lemma normpath_step_weight (slashes : nat) (stack : list string)
      (c : string) :
  weight (PosixPath.normpath_step slashes stack c)
  <= weight stack + (ascii_count c + 1).
Proof.
  unfold PosixPath.normpath_step.
  destruct ((c =? "") || (c =? ".")); [lia|].
  destruct (_ || _); [simpl; lia|].
  destruct stack; simpl; lia.
Qed.

Lemma normpath_fold_weight (slashes : nat) (comps : list string) :
  forall stack,
    weight (fold_left (PosixPath.normpath_step slashes) comps stack)
    <= weight stack + weight comps.
Proof.
  induction comps as [|c cs IH]; intros stack; simpl; [lia|].
  pose proof (IH (PosixPath.normpath_step slashes stack c)).
  pose proof (normpath_step_weight slashes stack c). lia.
Qed.

(** [normpath] of a relative path is [.], or holds no more ASCII bytes
    than the path. *)
Lemma normpath_count (path : string) :
  path <> "" ->
  PosixPath.isabs path = false ->
  PosixPath.normpath path = "."
  \/ ascii_count (PosixPath.normpath path) <= ascii_count path.
Proof.
  intros Hne Hrel. unfold PosixPath.normpath.
  apply String.eqb_neq in Hne. rewrite Hne.
  rewrite (initial_slashes_rel path Hrel). cbn [PosixPath.slashes_string].
  cbn [append]. cbv zeta.
  destruct (Str.join _ =? "") eqn:E; [left; reflexivity|right].
  pose proof (normpath_fold_weight 0 (Str.split path) []) as Hw.
  fold (PosixPath.normpath_comps 0 path) in Hw.
  rewrite weight_split in Hw. cbn [weight] in Hw.
  destruct (rev (PosixPath.normpath_comps 0 path)) as [|x l] eqn:Hl.
  - discriminate.
  - rewrite <- weight_rev, Hl in Hw.
    assert (Hx : x :: l <> []) by discriminate.
    pose proof (weight_join (x :: l) Hx). lia.
Qed.

End NormpathCount.

(** ** Base names *)

Section BaseNames.

Lemma basename_no_sep (p : string) :
  Str.contains Str.sep (PosixPath.basename p) = false.
Proof.
  unfold PosixPath.basename.
  pose proof (split_no_sep p) as H. pose proof (split_not_nil p) as Hne.
  induction (Str.split p) as [|x l IH]; [congruence|].
  inversion H; subst. destruct l as [|y l']; [assumption|].
  apply IH; [assumption|discriminate].
Qed.

(** [normpath] of a single component. *)
Lemma normpath_component (b : string) :
  Str.contains Str.sep b = false ->
  b <> "" -> b <> ".." ->
  PosixPath.normpath b = "." \/ PosixPath.normpath b = b.
Proof.
  intros Hs Hne Hdd.
  destruct (b =? ".") eqn:Hd.
  - apply String.eqb_eq in Hd. subst. left. reflexivity.
  - right. apply (normpath_names [b]); [discriminate|].
    simpl. unfold entry_name. apply String.eqb_neq in Hne, Hdd.
    rewrite Hne, Hdd, Hd, Hs. reflexivity.
Qed.

Lemma basename_join_rel (a x : string) :
  PosixPath.isabs x = false ->
  PosixPath.basename (PosixPath.join a x) = PosixPath.basename x.
Proof.
  unfold PosixPath.isabs, PosixPath.join, PosixPath.basename. intros ->.
  pose proof (split_not_nil x) as Hne.
  destruct (Str.split x) as [|c l] eqn:Hx; [congruence|].
  destruct (a =? "") eqn:Ha; cbn [orb].
  - apply String.eqb_eq in Ha. subst. cbn [append]. rewrite Hx. reflexivity.
  - destruct (Str.endswith_sep a) eqn:He.
    + apply endswith_sep_app in He. destruct He as [a0 ->].
      rewrite append_assoc. cbn [append].
      rewrite split_app_sep, Hx. apply last_app_cons.
    + change (a ++ "/" ++ x) with (a ++ String Str.sep x).
      rewrite split_app_sep, Hx. apply last_app_cons.
Qed.

Lemma last_weight (l : list string) (d : string) :
  l <> [] -> ascii_count (last l d) + 1 <= weight l.
Proof.
  induction l as [|x l IH]; [congruence|]. intros _.
  destruct l as [|y l'].
  - simpl. lia.
  - assert (H : y :: l' <> []) by discriminate. specialize (IH H).
    change (last (x :: y :: l') d) with (last (y :: l') d).
    cbn [weight] in *. lia.
Qed.

(** A base name holds no more ASCII bytes than the path. *)
Lemma basename_count (x : string) :
  ascii_count (PosixPath.basename x) <= ascii_count x.
Proof.
  unfold PosixPath.basename.
  pose proof (last_weight (Str.split x) "" (split_not_nil x)) as H.
  rewrite weight_split in H. lia.
Qed.

(** The base name of a safely joined path: empty, [.], or no longer than
    the joined name in ASCII bytes. *)
Lemma safe_join_basename_count (d u p : string) :
  safe_join d u = Some p ->
  PosixPath.basename p = ""
  \/ PosixPath.basename p = "."
  \/ ascii_count (PosixPath.basename p) <= ascii_count u.
Proof.
  destruct (u =? "") eqn:Hu.
  - apply String.eqb_eq in Hu. subst u.
    change (safe_join d "") with (Some (PosixPath.join (base_dir d) "")).
    intros H. injection H as <-.
    left. apply (basename_join (base_dir d) ""). reflexivity.
  - unfold safe_join. fold (base_dir d). rewrite Hu.
    apply String.eqb_neq in Hu.
    destruct (PosixPath.isabs (PosixPath.normpath u)) eqn:Ha;
      [discriminate|].
    destruct (_ || _ || _); [discriminate|].
    intros H. injection H as <-. rewrite (basename_join_rel _ _ Ha).
    destruct (PosixPath.isabs u) eqn:Hab.
    + rewrite (normpath_abs _ Hab) in Ha. discriminate.
    + destruct (normpath_count u Hu Hab) as [-> | Hle].
      * right. left. reflexivity.
      * right. right. pose proof (basename_count (PosixPath.normpath u)).
        lia.
Qed.

(** What the safe join makes of a single component. *)
Lemma safe_join_component (d b x : string) :
  Str.contains Str.sep b = false ->
  PosixPath.isabs x = false ->
  safe_join d b = Some (PosixPath.join (base_dir d) x) ->
  x = b \/ x = ".".
Proof.
  intros Hs Hx.
  destruct (b =? "") eqn:Hb.
  - apply String.eqb_eq in Hb. subst b.
    change (safe_join d "") with (Some (PosixPath.join (base_dir d) "")).
    intros H. injection H as H.
    apply join_inj in H; [|reflexivity|exact Hx]. left. congruence.
  - unfold safe_join. fold (base_dir d). rewrite Hb.
    apply String.eqb_neq in Hb.
    destruct (b =? "..") eqn:Hdd.
    + apply String.eqb_eq in Hdd. subst b. discriminate.
    + apply String.eqb_neq in Hdd.
      destruct (PosixPath.isabs (PosixPath.normpath b)) eqn:Ha;
        [discriminate|].
      destruct (_ || _ || _); [discriminate|].
      intros H. injection H as H.
      apply join_inj in H; [|exact Ha|exact Hx].
      destruct (normpath_component b Hs Hb Hdd) as [E|E];
        rewrite E in H; [right|left]; congruence.
Qed.

End BaseNames.

(** ** C10: the second decoding *)

(** C10.  The image handler decodes its input once more before it resolves
    it, so that its result (and, with its [print] calls, what it prints)
    depends on the decoded name only: two inputs with the same
    percent-decoding have the same result.  Hence a file of the image
    directory whose name holds a percent escape is not retrieved through
    its name by the direct lookup.  Requested by that name, the handler
    looks the decoded name up, which is another name, at another path;
    whenever this direct lookup finds a regular file, the response is not
    the file of the requested name; and when the decoded name is that of
    a regular file of the image directory, this other file is the
    response. *)
Theorem image_handler_decodes_again (lower : string -> string)
        (fs : filesystem) (root : string) :
  let image_dir := PosixPath.join root "images_scraped" in
  (forall s1 s2,
      Urllib.unquote s1 = Urllib.unquote s2 ->
      serve_scraped_images lower fs root s1
      = serve_scraped_images lower fs root s2
      /\ forall out log,
          Logged.serve_scraped_images out lower fs root s1 log
          = Logged.serve_scraped_images out lower fs root s2 log)
  /\ (forall name,
         entry_name name = true ->
         has_escape name = true ->
         Urllib.unquote name <> name
         /\ safe_join image_dir (Urllib.unquote name)
            <> Some (PosixPath.join image_dir name)
         /\ (direct_hit fs image_dir (Urllib.unquote name) = true ->
             forall body,
               serve_scraped_images lower fs root name
               <> Ret (FileResponse (PosixPath.join image_dir name) body))
         /\ (forall body',
                entry_name (Urllib.unquote name) = true ->
                file_at fs (PosixPath.join image_dir (Urllib.unquote name))
                        body' ->
                serve_scraped_images lower fs root name
                = Ret (FileResponse
                         (PosixPath.join image_dir (Urllib.unquote name))
                         body')
                /\ PosixPath.join image_dir (Urllib.unquote name)
                   <> PosixPath.join image_dir name)).
Proof.
  intros image_dir. split.
  - intros s1 s2 H. split.
    + unfold serve_scraped_images. rewrite H. reflexivity.
    + intros out log. unfold Logged.serve_scraped_images.
      rewrite H. reflexivity.
  - intros name Hname Hesc.
    pose proof (unquote_shorter name Hesc) as Hlt.
    destruct (entry_name_inv name Hname) as (N1 & N2 & N3 & N4).
    assert (Hrel : PosixPath.isabs name = false).
    { unfold PosixPath.isabs.
      destruct (Str.startswith "/" name) eqn:E; [|reflexivity].
      apply startswith_contains in E. change "/"%char with Str.sep in E.
      congruence. }
    assert (Hbase : base_dir image_dir = image_dir)
      by apply image_dir_base.
    assert (Hneq : Urllib.unquote name <> name).
    { intros E. rewrite E in Hlt. lia. }
    split; [exact Hneq|]. split; [|split].
    + intros Hj. apply safe_join_basename_count in Hj.
      rewrite (basename_join image_dir name N2) in Hj.
      destruct Hj as [Hj|[Hj|Hj]]; [congruence|congruence|lia].
    + intros Hhit body H.
      unfold serve_scraped_images in H. fold image_dir in H.
      rewrite serve_image_lookup in H. apply found_or_404_ret in H.
      unfold image_lookup in H. unfold direct_hit in Hhit.
      destruct (safe_join image_dir (Urllib.unquote name)) as [p|] eqn:Hj;
        [|discriminate].
      destruct (stat fs p) as [[| |]|]; try discriminate.
      apply lookup_file_found in H. destruct H as [Hb _].
      rewrite <- Hbase in Hb at 2.
      apply safe_join_component in Hb;
        [|apply basename_no_sep|exact Hrel].
      destruct Hb as [Hb|Hb]; [|congruence].
      apply safe_join_basename_count in Hj. rewrite <- Hb in Hj.
      destruct Hj as [Hj|[Hj|Hj]]; [congruence|congruence|lia].
    + intros body' Hu Hfile.
      destruct (entry_name_inv _ Hu) as (U1 & U2 & U3 & U4).
      split.
      * unfold serve_scraped_images. fold image_dir.
        rewrite serve_image_lookup. unfold image_lookup.
        pose proof (safe_join_entry image_dir _ Hu) as Hj.
        rewrite Hbase in Hj. rewrite Hj.
        destruct Hfile as [Hs Hr]. rewrite Hs.
        rewrite basename_join by exact U2.
        rewrite (lookup_file_at fs _ _ _ _ Hj (conj Hs Hr)). reflexivity.
      * intros E. apply join_inj in E; [congruence| |exact Hrel].
        unfold PosixPath.isabs.
        destruct (Str.startswith "/" (Urllib.unquote name)) eqn:E';
          [|reflexivity].
        apply startswith_contains in E'. change "/"%char with Str.sep in E'.
        congruence.
Qed.

(** An image directory with the two files [a%20b.jpg] and [a b.jpg]: the
    request for the first is answered as the request for the second, with
    the second file. *)
Lemma image_handler_decodes_again_witness :
  file_at percent_fs "/srv/app/images_scraped/a%20b.jpg" "percent"
  /\ serve_scraped_images Str.ascii_lower percent_fs "/srv/app" "a%20b.jpg"
     = serve_scraped_images Str.ascii_lower percent_fs "/srv/app" "a b.jpg"
  /\ serve_scraped_images Str.ascii_lower percent_fs "/srv/app" "a%20b.jpg"
     = Ret (FileResponse "/srv/app/images_scraped/a b.jpg" "space")
  /\ serve_scraped_images Str.ascii_lower percent_fs "/srv/app" "a%20b.jpg"
     <> Ret (FileResponse "/srv/app/images_scraped/a%20b.jpg" "percent").
Proof.
  pose proof (image_handler_decodes_again
                Str.ascii_lower percent_fs "/srv/app") as [Hsame Hname].
  destruct (Hname "a%20b.jpg" eq_refl eq_refl) as (_ & _ & Hhit & Hfile).
  split; [split; reflexivity|]. split; [|split].
  - apply (Hsame "a%20b.jpg" "a b.jpg"). reflexivity.
  - apply (Hfile "space"); [reflexivity|split; reflexivity].
  - apply (Hhit eq_refl "percent").
Defined.

(** The file [a%20b.jpg] alone, as in the image directory of [site]: its
    name decodes to [a b.jpg], which no file bears, and the fallback does
    not find it either; the request for it is answered 404. *)
Remark escaped_name_alone :
  file_at site_fs "/srv/app/images_scraped/a%20b.jpg" "percent"
  /\ Urllib.unquote "a%20b.jpg" = "a b.jpg"
  /\ serve_scraped_images Str.ascii_lower site_fs "/srv/app" "a%20b.jpg"
     = Raise (HTTPException 404).
Proof. repeat split. Qed.

(** * Further properties of the code *)

(** ** The safe join refuses the escaping paths, and only those *)

Section SafeJoinExact.

(** What [normpath] keeps of a relative path is a parent directory or an
    entry name. *)
Lemma normpath_step_kept (slashes : nat) (stack : list string) (c : string) :
  Str.contains Str.sep c = false ->
  Forall (fun x => x = ".." \/ entry_name x = true) stack ->
  Forall (fun x => x = ".." \/ entry_name x = true)
         (PosixPath.normpath_step slashes stack c).
Proof.
  intros Hc Hs. unfold PosixPath.normpath_step.
  destruct (c =? "") eqn:E1; [exact Hs|].
  destruct (c =? ".") eqn:E2; [exact Hs|]. cbn [orb].
  destruct (c =? "..") eqn:E3.
  - apply String.eqb_eq in E3. subst c. cbn [negb orb].
    destruct (_ || _).
    + constructor; [left; reflexivity|exact Hs].
    + destruct stack; [exact Hs|]. inversion Hs; assumption.
  - cbn [negb orb]. constructor; [|exact Hs]. right.
    unfold entry_name. rewrite E1, E2, E3, Hc. reflexivity.
Qed.

Lemma normpath_fold_kept (slashes : nat) (comps : list string) :
  forall stack,
    Forall (fun c => Str.contains Str.sep c = false) comps ->
    Forall (fun x => x = ".." \/ entry_name x = true) stack ->
    Forall (fun x => x = ".." \/ entry_name x = true)
           (fold_left (PosixPath.normpath_step slashes) comps stack).
Proof.
  induction comps as [|c cs IH]; intros stack Hc Hs; [exact Hs|].
  inversion Hc; subst. simpl. apply IH; [assumption|].
  apply normpath_step_kept; assumption.
Qed.

(** A relative path that does not climb normalises to [.] or to a path
    of entry names. *)
Lemma normpath_inside (path : string) :
  path <> "" ->
  escapes_root path = false ->
  PosixPath.normpath path = "."
  \/ exists names,
      names <> [] /\ forallb entry_name names = true
      /\ PosixPath.normpath path = Str.join names.
Proof.
  intros Hne Hesc. unfold escapes_root in Hesc.
  apply orb_false_iff in Hesc. destruct Hesc as [Hrel Hclimb].
  destruct (normpath_fold_rel (Str.split path) [] 0 (Forall_nil _)
                              (split_no_sep path))
    as (names & k & E & P & I).
  assert (Hk : k = 0) by (apply I; split; [reflexivity|exact Hclimb]).
  subst k. simpl in E. rewrite app_nil_r in E.
  pose proof (normpath_fold_kept 0 (Str.split path) [] (split_no_sep path)
                                 (Forall_nil _)) as K.
  rewrite E in K.
  assert (Hall : forallb entry_name (rev names) = true).
  { apply forallb_forall. intros x Hx. apply in_rev in Hx.
    rewrite Forall_forall in K, P.
    destruct (K x Hx) as [->|H]; [|exact H].
    destruct (P ".." Hx) as [Habs _]. congruence. }
  unfold PosixPath.normpath, PosixPath.normpath_comps.
  apply String.eqb_neq in Hne. rewrite Hne.
  rewrite (initial_slashes_rel path Hrel), E. cbn [PosixPath.slashes_string].
  cbn [append]. cbv zeta.
  destruct names as [|n ns].
  - left. reflexivity.
  - right. exists (rev (n :: ns)).
    assert (Hnn : rev (n :: ns) <> []).
    { simpl. intros H. apply app_eq_nil in H. destruct H. discriminate. }
    destruct (join_names_head _ Hnn Hall) as (c & r & Ej & _).
    rewrite Ej. simpl (String c r =? ""). cbv iota. auto.
Qed.

(** The checks of [safe_join] see the normalised name only. *)
Lemma safe_join_normalised (root x j : string) :
  x <> "" -> j <> "" ->
  PosixPath.normpath x = j -> PosixPath.normpath j = j ->
  safe_join root x = safe_join root j.
Proof.
  intros Hx Hj E1 E2. unfold safe_join.
  apply String.eqb_neq in Hx, Hj. rewrite Hx, Hj, E1, E2. reflexivity.
Qed.

Lemma normpath_dot : PosixPath.normpath "." = ".".
Proof. reflexivity. Qed.

(** The safe join refuses a path exactly when its normalisation leaves the
    root: an absolute path, or one that climbs above the root.  Every other
    path is accepted, and joined in its normalised form. *)
Theorem safe_join_refuses_exactly (root requestedPath : string) :
  (safe_join root requestedPath = None <-> escapes_root requestedPath = true)
  /\ (requestedPath <> "" ->
      escapes_root requestedPath = false ->
      safe_join root requestedPath
      = Some (PosixPath.join (base_dir root)
                             (PosixPath.normpath requestedPath))).
Proof.
  assert (Hacc : requestedPath <> "" ->
                 escapes_root requestedPath = false ->
                 safe_join root requestedPath
                 = Some (PosixPath.join (base_dir root)
                                        (PosixPath.normpath requestedPath))).
  { intros Hne Hesc.
    destruct (normpath_inside requestedPath Hne Hesc)
      as [Hd|(names & Hnn & Hall & Hj)].
    - rewrite (safe_join_normalised root requestedPath "." Hne
                                    ltac:(discriminate) Hd normpath_dot).
      rewrite Hd. reflexivity.
    - destruct (join_names_head names Hnn Hall) as (c & r & Ej & _).
      assert (Hjne : Str.join names <> "") by (rewrite Ej; discriminate).
      rewrite (safe_join_normalised root requestedPath (Str.join names) Hne
                                    Hjne Hj (normpath_names names Hnn Hall)).
      rewrite Hj. apply safe_join_names; assumption. }
  split; [split|exact Hacc].
  - intros Hnone. destruct (escapes_root requestedPath) eqn:Hesc;
      [reflexivity|].
    destruct (String.eqb_spec requestedPath "") as [->|Hne].
    + discriminate.
    + rewrite (Hacc Hne eq_refl) in Hnone. discriminate.
  - apply safe_join_escapes.
Qed.

End SafeJoinExact.

Lemma safe_join_refuses_exactly_witness :
  safe_join "/srv/app" "assets/../index.html/" = Some "/srv/app/index.html".
Proof.
  refine (proj2 (safe_join_refuses_exactly "/srv/app" "assets/../index.html/")
                _ _).
  - discriminate.
  - reflexivity.
Defined.

(** ** What the image handler serves *)

Section ImageResponses.

Variable fs : filesystem.

(** The path [image_lookup] returns is the image directory joined with a
    single component. *)
Lemma image_lookup_basename (lower : string -> string)
      (d x p body : string) :
  image_lookup lower fs d x = Some (FileResponse p body) ->
  exists q, safe_join d (PosixPath.basename q) = Some p.
Proof.
  unfold image_lookup.
  destruct (safe_join d x) as [q|]; [|discriminate].
  assert (Hfall :
    match listdir fs d with
    | None => None
    | Some entries =>
        match find_case_insensitive lower x entries with
        | None => None
        | Some f =>
            match safe_join d f with
            | None => None
            | Some q0 => lookup_file fs d (PosixPath.basename q0)
            end
        end
    end = Some (FileResponse p body) ->
    exists q, safe_join d (PosixPath.basename q) = Some p).
  { destruct (listdir fs d) as [l|]; [|discriminate].
    destruct (find_case_insensitive lower x l) as [f|]; [|discriminate].
    destruct (safe_join d f) as [q0|]; [|discriminate].
    intros H. apply lookup_file_found in H. destruct H as [H _]. eauto. }
  destruct (stat fs q) as [[| |]|]; try exact Hfall.
  intros H. apply lookup_file_found in H. destruct H as [H _]. eauto.
Qed.

(** The image handler sends [os.path.basename(safe_path)] from the image
    directory, so that it serves files of the image directory itself only:
    the path of every response is the image directory joined with one
    component, never a path into a subdirectory. *)
Theorem image_serves_direct_children (lower : string -> string)
        (root requestedPath p body : string) :
  serve_image lower fs root requestedPath = Ret (FileResponse p body) ->
  exists name,
    Str.contains Str.sep name = false
    /\ p = PosixPath.join (base_dir root) name
    /\ file_at fs p body.
Proof.
  intros H. rewrite serve_image_lookup in H. apply found_or_404_ret in H.
  destruct (image_lookup_found fs _ _ _ _ _ H) as (_ & _ & Hfile).
  destruct (image_lookup_basename _ _ _ _ _ H) as (q & Hq).
  pose proof (basename_no_sep q) as Hs.
  set (b := PosixPath.basename q) in *.
  unfold safe_join in Hq. fold (base_dir root) in Hq.
  destruct (b =? "") eqn:Hb.
  - apply String.eqb_eq in Hb. rewrite Hb in Hq. simpl in Hq.
    injection Hq as <-. exists "".
    split; [reflexivity|]. split; [reflexivity|exact Hfile].
  - apply String.eqb_neq in Hb.
    destruct (b =? "..") eqn:Hdd.
    + apply String.eqb_eq in Hdd. rewrite Hdd in Hq. discriminate.
    + apply String.eqb_neq in Hdd.
      destruct (_ || _ || _ || _); [discriminate|]. injection Hq as <-.
      destruct (normpath_component b Hs Hb Hdd) as [E|E];
        rewrite E in Hfile |- *.
      * exists ".". split; [reflexivity|]. split; [reflexivity|exact Hfile].
      * exists b. split; [exact Hs|]. split; [reflexivity|exact Hfile].
Qed.

(** When the direct lookup fails, the only file the image handler can
    serve instead is a listed entry of the image directory that equals the
    requested name up to case. *)
Theorem fallback_serves_case_variant (lower : string -> string)
        (root requestedPath p body : string) :
  case_keeps_entry_names lower ->
  listings_ok fs ->
  direct_hit fs root requestedPath = false ->
  serve_image lower fs root requestedPath = Ret (FileResponse p body) ->
  exists entries f,
    listdir fs root = Some entries
    /\ In f entries
    /\ lower f = lower requestedPath
    /\ p = PosixPath.join (base_dir root) f
    /\ file_at fs p body.
Proof.
  intros Hcase Hok Hmiss H. rewrite serve_image_lookup in H.
  apply found_or_404_ret in H.
  destruct (listdir fs root) as [entries|] eqn:Hl.
  - destruct (find_case_insensitive lower requestedPath entries) as [f|]
      eqn:Hf.
    + destruct (image_lookup_fallback lower fs root requestedPath entries f
                                      Hcase Hok Hmiss Hl Hf) as [Hj Himg].
      rewrite Himg in H. apply lookup_file_found in H.
      destruct H as [Hq Hfile]. rewrite Hj in Hq. injection Hq as <-.
      destruct (find_case_insensitive_some _ _ _ _ Hf) as [Hin Hlow].
      exists entries, f. auto.
    + rewrite (image_lookup_no_match lower fs root requestedPath Hmiss) in H;
        [discriminate|]. right. exists entries. auto.
  - rewrite (image_lookup_no_match lower fs root requestedPath Hmiss) in H;
      [discriminate|]. left. exact Hl.
Qed.

End ImageResponses.

Lemma image_serves_direct_children_witness :
  exists name,
    Str.contains Str.sep name = false
    /\ "/srv/app/images_scraped/z.png"
       = PosixPath.join (base_dir "/srv/app/images_scraped") name
    /\ file_at site_fs "/srv/app/images_scraped/z.png" "png".
Proof.
  apply (image_serves_direct_children
           site_fs Str.ascii_lower "/srv/app/images_scraped" "gallery/z.png").
  reflexivity.
Defined.

Lemma fallback_serves_case_variant_witness :
  exists entries f,
    listdir site_fs "/srv/app/images_scraped" = Some entries
    /\ In f entries
    /\ Str.ascii_lower f = Str.ascii_lower "PHOTO.jpg"
    /\ "/srv/app/images_scraped/Photo.JPG"
       = PosixPath.join (base_dir "/srv/app/images_scraped") f
    /\ file_at site_fs "/srv/app/images_scraped/Photo.JPG" "jpeg".
Proof.
  apply (fallback_serves_case_variant
           site_fs Str.ascii_lower "/srv/app/images_scraped" "PHOTO.jpg").
  - exact ascii_lower_keeps_entry_names.
  - apply table_listings_ok. reflexivity.
  - reflexivity.
  - reflexivity.
Defined.

(** ** The listing is read by the fallback only *)

Section Listing.

(** The listing of the directory is read by the fallback of the image
    handler only: the root handler and its routes never depend on a
    listing (they have no fallback, and compare names exactly), nor does
    the image handler when its direct lookup finds a regular file. *)
Theorem listing_read_by_fallback_only (lower : string -> string)
        (fs1 fs2 : filesystem) (root requestedPath : string) :
  (forall p, stat fs1 p = stat fs2 p) ->
  (forall p, read fs1 p = read fs2 p) ->
  serve_root_files fs1 root requestedPath
  = serve_root_files fs2 root requestedPath
  /\ route_root fs1 root requestedPath = route_root fs2 root requestedPath
  /\ (direct_hit fs1 root requestedPath = true ->
      serve_image lower fs1 root requestedPath
      = serve_image lower fs2 root requestedPath).
Proof.
  intros Hs Hr.
  assert (Hroot : forall x, serve_root_files fs1 root x
                            = serve_root_files fs2 root x).
  { intros x. rewrite !serve_root_files_lookup.
    rewrite (lookup_file_agree fs1 fs2 root x Hs Hr). reflexivity. }
  split; [apply Hroot|]. split.
  - unfold route_root. destruct (requestedPath =? ""); apply Hroot.
  - intros Hhit. rewrite !serve_image_lookup. f_equal.
    unfold image_lookup, direct_hit in *.
    destruct (safe_join root requestedPath) as [p|]; [|discriminate].
    rewrite <- Hs.
    destruct (stat fs1 p) as [[| |]|]; try discriminate.
    apply lookup_file_agree; assumption.
Qed.

End Listing.

(** Without any listing at all, the root handler and a direct hit of the
    image handler answer as before. *)
Lemma listing_read_by_fallback_only_witness :
  serve_root_files
    (with_listing site_fs "/srv/app" []) "/srv/app" "assets/app.js"
  = Ret (FileResponse "/srv/app/assets/app.js" "js")
  /\ serve_image Str.ascii_lower
       (with_listing site_fs "/srv/app/images_scraped" [])
       "/srv/app/images_scraped" "z.png"
     = Ret (FileResponse "/srv/app/images_scraped/z.png" "png").
Proof.
  split.
  - rewrite <- (proj1 (listing_read_by_fallback_only
                         Str.ascii_lower
                         site_fs (with_listing site_fs "/srv/app" [])
                         "/srv/app" "assets/app.js"
                         (fun _ => eq_refl) (fun _ => eq_refl))).
    reflexivity.
  - rewrite <- (proj2 (proj2 (listing_read_by_fallback_only
                         Str.ascii_lower site_fs
                         (with_listing site_fs "/srv/app/images_scraped" [])
                         "/srv/app/images_scraped" "z.png"
                         (fun _ => eq_refl) (fun _ => eq_refl))) eq_refl).
    reflexivity.
Defined.

(** ** Names without a percent escape *)

Section NoEscape.

Lemma has_escape_suffix (a b : string) :
  has_escape (a ++ b) = false -> has_escape b = false.
Proof.
  induction a as [|c a IH]; [auto|].
  cbn [append has_escape]. intros H.
  apply orb_false_iff in H. destruct H as [_ H]. auto.
Qed.

Lemma has_escape_prefix (a b : string) :
  has_escape (a ++ b) = false -> has_escape a = false.
Proof.
  induction a as [|c a IH]; [reflexivity|].
  cbn [append has_escape]. intros H.
  apply orb_false_iff in H. destruct H as [Hh Ht].
  rewrite (IH Ht), orb_false_r.
  destruct (Ascii.eqb c "%"); [|reflexivity].
  destruct a as [|x [|y a']]; try reflexivity. exact Hh.
Qed.

Lemma unquote_to_bytes_no_escape (n : nat) :
  forall s,
    String.length s <= n ->
    has_escape s = false -> Urllib.unquote_to_bytes s = s.
Proof.
  induction n as [|n IH]; intros s Hn H.
  - destruct s; [reflexivity|simpl in Hn; lia].
  - destruct s as [|c r]; [reflexivity|].
    cbn [has_escape] in H. apply orb_false_iff in H. destruct H as [Hh Ht].
    assert (Hr : Urllib.unquote_to_bytes r = r)
      by (apply IH; [simpl in Hn; lia|exact Ht]).
    cbn [Urllib.unquote_to_bytes].
    destruct (Ascii.eqb c "%"); [|rewrite Hr; reflexivity].
    destruct r as [|a [|b rest]]; try (rewrite Hr; reflexivity).
    destruct (Urllib.hexdig a); [|rewrite Hr; reflexivity].
    destruct (Urllib.hexdig b); [discriminate|rewrite Hr; reflexivity].
Qed.

Lemma decode_replace_ascii (s : string) :
  ascii_only s = true -> Urllib.decode_replace s = s.
Proof.
  induction s as [|c r IH]; [reflexivity|].
  cbn [ascii_only Urllib.decode_replace]. intros H.
  apply andb_true_iff in H. destruct H as [Hc Hr].
  unfold Urllib.is_ascii in Hc. cbv zeta. rewrite Hc, (IH Hr). reflexivity.
Qed.

Lemma unquote_pieces_no_escape (s : string) :
  forall run,
    ascii_only run = true ->
    has_escape (run ++ s) = false ->
    Urllib.unquote_pieces s run = run ++ s.
Proof.
  induction s as [|c r IH]; intros run Hrun H.
  - cbn [Urllib.unquote_pieces]. unfold Urllib.unquote_run.
    rewrite append_nil_r in *.
    rewrite (unquote_to_bytes_no_escape _ run (le_n _) H).
    apply decode_replace_ascii. exact Hrun.
  - cbn [Urllib.unquote_pieces]. destruct (Urllib.is_ascii c) eqn:Hc.
    + rewrite IH.
      * apply append_assoc.
      * rewrite ascii_only_app. simpl. rewrite Hrun, Hc. reflexivity.
      * rewrite append_assoc. exact H.
    + unfold Urllib.unquote_run.
      rewrite (unquote_to_bytes_no_escape _ run (le_n _)
                                          (has_escape_prefix _ _ H)).
      rewrite (decode_replace_ascii run Hrun).
      rewrite (IH "" eq_refl).
      * reflexivity.
      * apply has_escape_suffix in H. cbn [has_escape] in H.
        apply orb_false_iff in H. apply H.
Qed.

Lemma unquote_no_escape (s : string) :
  has_escape s = false -> Urllib.unquote s = s.
Proof.
  intros H. unfold Urllib.unquote.
  destruct (Str.contains "%" s); [|reflexivity].
  exact (unquote_pieces_no_escape s "" eq_refl H).
Qed.

(** [unquote] changes a name exactly when the name holds a percent sign
    followed by two hexadecimal digits; a percent sign alone (as in
    [50%.png]) is kept. *)
Theorem unquote_fixes_names_without_escape (s : string) :
  Urllib.unquote s = s <-> has_escape s = false.
Proof.
  split.
  - intros E. destruct (has_escape s) eqn:H; [|reflexivity].
    pose proof (unquote_shorter s H) as Hlt. rewrite E in Hlt. lia.
  - apply unquote_no_escape.
Qed.

(** The handler looks up the decoded name: when the percent-decoding of
    its input names an existing regular file of the image directory, that
    file is the response.  In particular a file whose name holds no
    percent escape is served under its name. *)
Theorem handler_serves_decoded_name (lower : string -> string)
        (fs : filesystem) (root filename body : string) :
  let image_dir := PosixPath.join root "images_scraped" in
  entry_name (Urllib.unquote filename) = true ->
  file_at fs (PosixPath.join image_dir (Urllib.unquote filename)) body ->
  serve_scraped_images lower fs root filename
  = Ret (FileResponse (PosixPath.join image_dir (Urllib.unquote filename))
                      body)
  /\ (has_escape filename = false ->
      serve_scraped_images lower fs root filename
      = Ret (FileResponse (PosixPath.join image_dir filename) body)).
Proof.
  intros image_dir Hname Hfile.
  assert (Hserve :
            serve_scraped_images lower fs root filename
            = Ret (FileResponse
                     (PosixPath.join image_dir (Urllib.unquote filename))
                     body)).
  { unfold serve_scraped_images. fold image_dir.
    rewrite serve_image_lookup. unfold image_lookup.
    pose proof (safe_join_entry image_dir _ Hname) as Hj.
    unfold image_dir at 2 in Hj. rewrite image_dir_base in Hj.
    fold image_dir in Hj. rewrite Hj.
    destruct Hfile as [Hs Hr]. rewrite Hs.
    rewrite basename_join by (apply entry_name_inv; exact Hname).
    rewrite (lookup_file_at fs _ _ _ _ Hj (conj Hs Hr)). reflexivity. }
  split; [exact Hserve|].
  intros Hno. rewrite Hserve, (unquote_no_escape filename Hno). reflexivity.
Qed.

End NoEscape.

Lemma unquote_fixes_names_without_escape_witness :
  Urllib.unquote "50%.png" = "50%.png".
Proof.
  apply (unquote_fixes_names_without_escape "50%.png"). reflexivity.
Defined.

(** [Photo%2EJPG] decodes to [Photo.JPG], a file of the image directory of
    [site]. *)
Lemma handler_serves_decoded_name_witness :
  serve_scraped_images Str.ascii_lower site_fs "/srv/app" "Photo%2EJPG"
  = Ret (FileResponse "/srv/app/images_scraped/Photo.JPG" "jpeg").
Proof.
  apply (handler_serves_decoded_name
           Str.ascii_lower site_fs "/srv/app" "Photo%2EJPG" "jpeg").
  - reflexivity.
  - split; reflexivity.
Defined.

(** ** The project root and its image directory *)

Section ProjectRoot.

Lemma isabs_cons (c : ascii) (r : string) :
  PosixPath.isabs (String c r) = Ascii.eqb c Str.sep.
Proof. unfold PosixPath.isabs. apply startswith_sep. Qed.

Lemma isabs_app (a b : string) :
  PosixPath.isabs a = true -> PosixPath.isabs (a ++ b) = true.
Proof.
  destruct a as [|c r]; [discriminate|].
  cbn [append]. rewrite !isabs_cons. auto.
Qed.

Lemma abspath_abs (cwd path : string) :
  PosixPath.isabs cwd = true -> PosixPath.isabs (abspath cwd path) = true.
Proof.
  intros Hcwd. unfold abspath. apply normpath_abs.
  destruct (PosixPath.isabs path) eqn:Hp; [exact Hp|].
  unfold PosixPath.join. unfold PosixPath.isabs in Hp. rewrite Hp.
  destruct (_ || _); apply isabs_app; exact Hcwd.
Qed.

Lemma up_to_last_sep_abs (q : string) :
  PosixPath.isabs q = true -> PosixPath.isabs (up_to_last_sep q) = true.
Proof.
  destruct q as [|c r]; [discriminate|].
  rewrite isabs_cons. intros Hc. cbn [up_to_last_sep]. rewrite Hc.
  destruct (Str.contains Str.sep r); rewrite isabs_cons; exact Hc.
Qed.

Lemma rstrip_sep_empty (s : string) :
  rstrip_sep s = "" -> all_sep s = true.
Proof.
  induction s as [|c r IH]; [reflexivity|].
  cbn [rstrip_sep all_sep]. cbv zeta.
  destruct (rstrip_sep r =? "") eqn:E.
  - apply String.eqb_eq in E. rewrite (IH E).
    destruct (Ascii.eqb c Str.sep); [reflexivity|discriminate].
  - discriminate.
Qed.

Lemma dirname_abs (q : string) :
  PosixPath.isabs q = true -> PosixPath.isabs (dirname q) = true.
Proof.
  intros Hq. unfold dirname. cbv zeta.
  pose proof (up_to_last_sep_abs q Hq) as Hh.
  destruct (negb (_ =? "") && negb (all_sep _)) eqn:E; [|exact Hh].
  apply andb_true_iff in E. destruct E as [_ E].
  apply negb_true_iff in E.
  destruct (up_to_last_sep q) as [|c r]; [discriminate|].
  rewrite isabs_cons in Hh. cbn [rstrip_sep]. cbv zeta.
  destruct (rstrip_sep r =? "") eqn:Er.
  - apply String.eqb_eq in Er. apply rstrip_sep_empty in Er.
    cbn [all_sep] in E. rewrite Hh, Er in E. discriminate.
  - cbn [andb]. rewrite isabs_cons. exact Hh.
Qed.

Lemma endswith_sep_app_r (a : string) (c : ascii) (r : string) :
  Str.endswith_sep (a ++ String c r) = Str.endswith_sep (String c r).
Proof.
  induction a as [|x a IH]; [reflexivity|].
  cbn [append]. rewrite <- IH.
  destruct (a ++ String c r) eqn:E; [|reflexivity].
  destruct a; discriminate.
Qed.

Lemma join_relative (a b : string) :
  a <> "" -> PosixPath.isabs b = false ->
  PosixPath.join a b
  = if Str.endswith_sep a then a ++ b else a ++ String Str.sep b.
Proof.
  intros Ha Hb. unfold PosixPath.join. unfold PosixPath.isabs in Hb.
  rewrite Hb. apply String.eqb_neq in Ha. rewrite Ha. reflexivity.
Qed.

Lemma app_not_empty (a : string) (c : ascii) (r : string) :
  a ++ String c r <> "".
Proof. destruct a; discriminate. Qed.

(** What lies in the image directory lies in the project root. *)
Lemma within_image_dir (root p : string) :
  root <> "" ->
  lexically_within (PosixPath.join root "images_scraped") p ->
  lexically_within root p.
Proof.
  intros Hne (rel & Hp & Hrel & Hdd).
  rewrite image_dir_base in Hp.
  exists ("images_scraped" ++ String Str.sep rel).
  split; [|split].
  - subst p. unfold base_dir.
    rewrite (proj2 (String.eqb_neq root "") Hne).
    rewrite (join_relative root ("images_scraped" ++ String Str.sep rel) Hne
                           eq_refl).
    rewrite (join_relative root "images_scraped" Hne eq_refl).
    destruct (Str.endswith_sep root).
    + rewrite (join_relative _ rel (app_not_empty _ _ _) Hrel).
      rewrite endswith_sep_app_r. cbn [Str.endswith_sep].
      replace (Str.endswith_sep "images_scraped") with false by reflexivity.
      apply append_assoc.
    + rewrite (join_relative _ rel (app_not_empty _ _ _) Hrel).
      rewrite endswith_sep_app_r.
      replace (Str.endswith_sep (String Str.sep "images_scraped"))
        with false by reflexivity.
      rewrite append_assoc. reflexivity.
  - reflexivity.
  - rewrite split_app_sep. simpl. intros [H|H]; [discriminate|auto].
Qed.

(** [PROJECT_ROOT] is an absolute path, whatever the working directory and
    [__file__] are; the image directory is its [images_scraped], and lies
    in it; so every file [serve_scraped_images] returns lies in
    [PROJECT_ROOT] as well. *)
Theorem project_root_holds_images (lower : string -> string)
        (cwd file : string) :
  PosixPath.isabs cwd = true ->
  let PROJECT_ROOT := project_root cwd file in
  PosixPath.isabs PROJECT_ROOT = true
  /\ base_dir PROJECT_ROOT = PROJECT_ROOT
  /\ lexically_within PROJECT_ROOT
                      (PosixPath.join PROJECT_ROOT "images_scraped")
  /\ (forall fs filename p body,
         serve_scraped_images lower fs PROJECT_ROOT filename
         = Ret (FileResponse p body) ->
         lexically_within PROJECT_ROOT p).
Proof.
  intros Hcwd PROJECT_ROOT.
  assert (Habs : PosixPath.isabs PROJECT_ROOT = true)
    by (apply dirname_abs, abspath_abs; exact Hcwd).
  assert (Hne : PROJECT_ROOT <> "")
    by (intros E; rewrite E in Habs; discriminate).
  assert (Hbase : base_dir PROJECT_ROOT = PROJECT_ROOT).
  { unfold base_dir. apply String.eqb_neq in Hne. rewrite Hne. reflexivity. }
  split; [exact Habs|]. split; [exact Hbase|]. split.
  - exists "images_scraped". rewrite Hbase.
    split; [reflexivity|]. split; [reflexivity|].
    simpl. intros [H|H]; [discriminate|auto].
  - intros fs filename p body H. apply within_image_dir; [exact Hne|].
    unfold serve_scraped_images in H. rewrite serve_image_lookup in H.
    apply found_or_404_ret, image_lookup_found in H.
    destruct H as (y & Hy & _). eapply safe_join_within. exact Hy.
Qed.

End ProjectRoot.

(** The server started as [python server.py] in [/srv/app]. *)
Lemma project_root_holds_images_witness :
  project_root "/srv/app" "server.py" = "/srv/app"
  /\ lexically_within (project_root "/srv/app" "server.py")
                      "/srv/app/images_scraped".
Proof.
  split; [reflexivity|].
  apply (project_root_holds_images Str.ascii_lower "/srv/app" "server.py").
  reflexivity.
Defined.

(** ** Spellings of one request *)

Section Aliases.

Lemma normpath_by_comps (x y : string) :
  x <> "" -> y <> "" ->
  PosixPath.isabs x = false -> PosixPath.isabs y = false ->
  PosixPath.normpath_comps 0 y = PosixPath.normpath_comps 0 x ->
  PosixPath.normpath y = PosixPath.normpath x.
Proof.
  intros Hx Hy Ax Ay E. unfold PosixPath.normpath.
  apply String.eqb_neq in Hx, Hy. rewrite Hx, Hy.
  rewrite (initial_slashes_rel x Ax), (initial_slashes_rel y Ay), E.
  reflexivity.
Qed.

Lemma safe_join_by_comps (root x y : string) :
  x <> "" -> y <> "" ->
  PosixPath.isabs x = false -> PosixPath.isabs y = false ->
  PosixPath.normpath_comps 0 y = PosixPath.normpath_comps 0 x ->
  safe_join root y = safe_join root x.
Proof.
  intros Hx Hy Ax Ay E. unfold safe_join.
  rewrite (normpath_by_comps x y Hx Hy Ax Ay E).
  apply String.eqb_neq in Hx, Hy. rewrite Hx, Hy. reflexivity.
Qed.

Lemma comps_trailing_slash (x : string) :
  PosixPath.normpath_comps 0 (x ++ String Str.sep "")
  = PosixPath.normpath_comps 0 x.
Proof.
  unfold PosixPath.normpath_comps.
  rewrite split_app_sep, fold_left_app. reflexivity.
Qed.

Lemma comps_leading_dot (x : string) :
  PosixPath.normpath_comps 0 ("." ++ String Str.sep x)
  = PosixPath.normpath_comps 0 x.
Proof.
  unfold PosixPath.normpath_comps. rewrite split_app_sep. reflexivity.
Qed.

Lemma step_push (d : string) :
  entry_name d = true -> PosixPath.normpath_step 0 [] d = [d].
Proof.
  intros Hd. destruct (entry_name_inv d Hd) as (H1 & _ & H3 & H4).
  unfold PosixPath.normpath_step.
  apply String.eqb_neq in H1, H3, H4. rewrite H1, H3, H4. reflexivity.
Qed.

Lemma step_pop (d : string) :
  entry_name d = true -> PosixPath.normpath_step 0 [d] ".." = [].
Proof.
  intros Hd. destruct (entry_name_inv d Hd) as (_ & _ & _ & H4).
  unfold PosixPath.normpath_step.
  apply String.eqb_neq in H4. rewrite H4. reflexivity.
Qed.

Lemma comps_detour (d x : string) :
  entry_name d = true ->
  PosixPath.normpath_comps 0 (d ++ String Str.sep (".." ++ String Str.sep x))
  = PosixPath.normpath_comps 0 x.
Proof.
  intros Hd. destruct (entry_name_inv d Hd) as (_ & H2 & _).
  unfold PosixPath.normpath_comps.
  rewrite split_app_sep, (split_without_sep d H2), split_app_sep.
  change (Str.split "..") with [".."].
  cbn [app fold_left]. rewrite (step_push d Hd), (step_pop d Hd).
  reflexivity.
Qed.

(** The root handler answers a request by its normalised path: a trailing
    slash, a leading [./] and a detour [d/../] through any name [d] (a
    directory of that name need not exist) change nothing. *)
Theorem root_request_spellings
        (fs : filesystem) (root requestedPath : string) :
  requestedPath <> "" ->
  PosixPath.isabs requestedPath = false ->
  serve_root_files fs root (requestedPath ++ "/")
  = serve_root_files fs root requestedPath
  /\ serve_root_files fs root ("./" ++ requestedPath)
     = serve_root_files fs root requestedPath
  /\ (forall d,
         entry_name d = true ->
         serve_root_files fs root (d ++ "/../" ++ requestedPath)
         = serve_root_files fs root requestedPath).
Proof.
  intros Hne Hrel.
  assert (Hsame : forall y,
             safe_join root y = safe_join root requestedPath ->
             serve_root_files fs root y
             = serve_root_files fs root requestedPath).
  { intros y E. rewrite !serve_root_files_lookup. unfold lookup_file.
    rewrite E. reflexivity. }
  destruct requestedPath as [|c r] eqn:Ex; [congruence|]. rewrite <- Ex in *.
  split; [|split].
  - apply Hsame. apply safe_join_by_comps; try assumption.
    + rewrite Ex. discriminate.
    + rewrite Ex in *. cbn [append]. rewrite isabs_cons in *. exact Hrel.
    + apply comps_trailing_slash.
  - apply Hsame. apply safe_join_by_comps; try assumption.
    + discriminate.
    + reflexivity.
    + apply comps_leading_dot.
  - intros d Hd. apply Hsame.
    destruct (entry_name_inv d Hd) as (H1 & H2 & _).
    destruct d as [|a d']; [congruence|].
    apply safe_join_by_comps; try assumption.
    + discriminate.
    + cbn [append]. rewrite isabs_cons.
      cbn [Str.contains] in H2. apply orb_false_iff in H2. apply H2.
    + apply (comps_detour (String a d') requestedPath Hd).
Qed.

End Aliases.

(** Three spellings of [index.html]. *)
Lemma root_request_spellings_witness :
  serve_root_files site_fs "/srv/app" "index.html/"
  = Ret (FileResponse "/srv/app/index.html" "<html>")
  /\ serve_root_files site_fs "/srv/app" "./index.html"
     = Ret (FileResponse "/srv/app/index.html" "<html>")
  /\ serve_root_files site_fs "/srv/app" "nowhere/../index.html"
     = Ret (FileResponse "/srv/app/index.html" "<html>").
Proof.
  assert (H : serve_root_files site_fs "/srv/app" "index.html"
              = Ret (FileResponse "/srv/app/index.html" "<html>"))
    by reflexivity.
  destruct (root_request_spellings site_fs "/srv/app" "index.html"
                                   ltac:(discriminate) eq_refl)
    as (H1 & H2 & H3).
  split; [|split].
  - rewrite <- H. exact H1.
  - rewrite <- H. exact H2.
  - rewrite <- H. exact (H3 "nowhere" eq_refl).
Defined.
